(** * Slack MCP server: the workspace client and its tool registry

    A shallow embedding of [src/slack/index.ts]: the [SlackClient] class
    (one method per Slack Web API operation) and the [SlackMCP] agent that
    registers one tool per client method.

    Layout: [Module JS] holds the parts of the JavaScript runtime the source
    relies on (strings, numbers, JSON values, [JSON.stringify], truthiness,
    property reads, [URLSearchParams], [fetch] and promises); the rest of the
    file follows the source top to bottom, then states and proves the
    properties of the client and of the registry. *)

From Stdlib Require Import List ZArith NArith Bool Ascii String.
From Stdlib Require Import DecimalString DecimalPos DecimalZ Lia.
From Stdlib Require Import QArith Qround Qabs Floats.SpecFloat.
Import ListNotations.

Set Implicit Arguments.
Set Warnings "-register-all".
Close Scope Q_scope.

(* ================================================================== *)
(** ** The JavaScript runtime used by the source *)
(* ================================================================== *)

Module JS.

(** *** Strings

    A JavaScript string is a sequence of UTF-16 code units.  A code unit is
    kept as an [N]; the values the runtime produces are below 65536. *)

Definition codeunit := N.
Definition jsstring := list codeunit.

(** [js "lit"] is the string literal [lit] (ASCII literals only). *)
Definition js (s : string) : jsstring :=
  map N_of_ascii (list_ascii_of_string s).
Arguments js s%_string.

Definition unit_eqb (a b : codeunit) : bool := N.eqb a b.

Fixpoint jsstring_eqb (a b : jsstring) : bool :=
  match a, b with
  | [], [] => true
  | x :: a', y :: b' => unit_eqb x y && jsstring_eqb a' b'
  | _, _ => false
  end.

(** WhiteSpace and LineTerminator code points of ECMAScript, the ones
    [String.prototype.trim] removes; all of them are single code units. *)
Definition is_white_space (c : codeunit) : bool :=
  ((9 <=? c) && (c <=? 13) || (c =? 32) || (c =? 160) || (c =? 0x1680)
   || ((0x2000 <=? c) && (c <=? 0x200A))
   || (c =? 0x2028) || (c =? 0x2029) || (c =? 0x202F) || (c =? 0x205F)
   || (c =? 0x3000) || (c =? 0xFEFF))%N.

Fixpoint trimStart (s : jsstring) : jsstring :=
  match s with
  | [] => []
  | c :: r => if is_white_space c then trimStart r else s
  end.

Definition trimEnd (s : jsstring) : jsstring := rev (trimStart (rev s)).

(** [s.trim()] *)
Definition trim (s : jsstring) : jsstring := trimEnd (trimStart s).

(** [s.split(sep)] for a separator of one code unit, which is the only use
    the source makes of it ([split(",")]).  The result is never empty:
    the empty string splits into one empty string. *)
Fixpoint split (sep : codeunit) (s : jsstring) : list jsstring :=
  match s with
  | [] => [[]]
  | c :: r =>
      if unit_eqb c sep then [] :: split sep r
      else match split sep r with
           | w :: ws => (c :: w) :: ws
           | [] => [[c]]
           end
  end.

Definition comma : codeunit := 44%N.

(** [a.join(sep)] on an array of strings. *)
Fixpoint join (sep : jsstring) (l : list jsstring) : jsstring :=
  match l with
  | [] => []
  | [x] => x
  | x :: r => x ++ sep ++ join sep r
  end.

(** *** Numbers

    A JavaScript number is an IEEE 754 binary64 value.  It is kept as a
    [spec_float] of the Standard Library with precision 53 and maximal
    exponent 1024: a signed zero, a signed infinity, NaN, or a sign, a
    mantissa and a binary exponent.  The numbers the runtime produces are
    the canonical ones ([valid_binary]). *)

Definition number := spec_float.
Definition prec : Z := 53.
Definition emax : Z := 1024.

(** The number nearest to an integer, as a numeric literal denotes it. *)
Definition num (z : Z) : number := binary_normalize prec emax z 0 false.

Definition is_nan (x : number) : bool :=
  match x with S754_nan => true | _ => false end.

(** [Math.min(a, b)]: NaN if either is NaN, and [-0] is below [+0]. *)
Definition Math_min (a b : number) : number :=
  if is_nan a || is_nan b then S754_nan
  else if SFltb b a then b
  else if SFltb a b then a
  else match a with
       | S754_zero true => a
       | _ => b
       end.

(** The decimal digits of an integer. *)
Definition digits (z : Z) : jsstring :=
  js (NilZero.string_of_int (Z.to_int z)).

(** [Number.prototype.toString()], radix 10 (Number::toString of
    ECMAScript).  For a positive finite [v] it takes the integers [n], [k],
    [s] with [k >= 1], [10^(k-1) <= s < 10^k], [s * 10^(n-k)] rounding to
    [v], and [k] as small as possible (the [s] nearest to [v], the even one
    on a tie), and prints the digits of [s] placed by [n].  The arithmetic
    is exact, on rationals. *)

Definition Qltb (a b : Q) : bool := negb (Qle_bool b a).
Definition pow10 (n : Z) : Q := Qpower (10 # 1) n.
Definition pow2 (n : Z) : Q := Qpower (2 # 1) n.

(** The [n] with [10^(n-1) <= v < 10^n], searched from an estimate. *)
Fixpoint decimal_exponent (fuel : nat) (v : Q) (n : Z) : Z :=
  match fuel with
  | O => n
  | S fuel' =>
      if Qltb v (pow10 (n - 1)) then decimal_exponent fuel' v (n - 1)
      else if Qle_bool (pow10 n) v then decimal_exponent fuel' v (n + 1)
      else n
  end.

(** [d] rounds to the number whose rounding interval is [lo, hi], closed
    when the mantissa is even (ties go to even). *)
Definition rounds_to (lo hi : Q) (closed : bool) (d : Q) : bool :=
  if closed then Qle_bool lo d && Qle_bool d hi
  else Qltb lo d && Qltb d hi.

(** The [s] of [k] digits around [v / 10^(n-k)] that round to [v]. *)
Definition candidates (v lo hi : Q) (closed : bool) (k n : Z) : list (Z * Z) :=
  let scale := pow10 (n - k) in
  let s0 := Qfloor (Qdiv v scale) in
  map (fun s => (s, n))
    (filter (fun s => (10 ^ (k - 1) <=? s)%Z && (s <? 10 ^ k)%Z
                      && rounds_to lo hi closed (Qmult (inject_Z s) scale))
            [s0; (s0 + 1)%Z]).

Definition distance (v : Q) (k : Z) (c : Z * Z) : Q :=
  Qabs (Qminus (Qmult (inject_Z (fst c)) (pow10 (snd c - k))) v).

Definition closer (v : Q) (k : Z) (a b : Z * Z) : Z * Z :=
  if Qltb (distance v k a) (distance v k b) then a
  else if Qltb (distance v k b) (distance v k a) then b
  else if Z.even (fst a) then a else b.

(** The shortest [(s, n, k)]; seventeen digits always suffice. *)
Fixpoint shortest (fuel : nat) (v lo hi : Q) (closed : bool) (n0 k : Z)
  : Z * Z * Z :=
  match fuel with
  | O => (Qfloor (Qdiv v (pow10 (n0 - k))), n0, k)
  | S fuel' =>
      match candidates v lo hi closed k n0
            ++ candidates v lo hi closed k (n0 + 1) with
      | c :: cs =>
          let best := fold_left (closer v k) cs c in
          (fst best, snd best, k)
      | [] => shortest fuel' v lo hi closed n0 (k + 1)
      end
  end.

Definition zeros (n : Z) : jsstring := repeat 48%N (Z.to_nat n).

(** Placing [k] digits by [n]: integer, fraction, small fraction, or
    exponent form. *)
Definition format_decimal (ds : jsstring) (n k : Z) : jsstring :=
  if (k <=? n)%Z && (n <=? 21)%Z then ds ++ zeros (n - k)
  else if (0 <? n)%Z && (n <=? 21)%Z then
    firstn (Z.to_nat n) ds ++ js "." ++ skipn (Z.to_nat n) ds
  else if (-6 <? n)%Z && (n <=? 0)%Z then js "0." ++ zeros (- n) ++ ds
  else
    let e := (n - 1)%Z in
    let exponent :=
      js "e" ++ (if (e <? 0)%Z then js "-" else js "+") ++ digits (Z.abs e) in
    if (k =? 1)%Z then ds ++ exponent
    else firstn 1 ds ++ js "." ++ skipn 1 ds ++ exponent.

Definition positive_toString (m : positive) (e : Z) : jsstring :=
  let v := Qmult (inject_Z (Zpos m)) (pow2 e) in
  let width := (Z.log2 (Zpos m) + 1)%Z in
  let ec := Z.max (width + e - prec) (3 - emax - prec) in
  let ulp := pow2 ec in
  let at_binade :=
    (Zpos m =? 2 ^ Z.log2 (Zpos m))%Z && (3 - emax - prec <? ec)%Z in
  let lo := Qminus v (if at_binade then Qdiv ulp (4 # 1) else Qdiv ulp (2 # 1)) in
  let hi := Qplus v (Qdiv ulp (2 # 1)) in
  let closed := Z.even (Qfloor (Qdiv v ulp)) in
  let estimate := ((Z.log2 (Zpos m) + e) * 30103 / 100000 + 1)%Z in
  let n0 := decimal_exponent 700 v estimate in
  let '(s, n, k) := shortest 17 v lo hi closed n0 1 in
  format_decimal (digits s) n k.

Definition Number_toString (x : number) : jsstring :=
  match x with
  | S754_nan => js "NaN"
  | S754_zero _ => js "0"
  | S754_infinity false => js "Infinity"
  | S754_infinity true => js "-Infinity"
  | S754_finite false m e => positive_toString m e
  | S754_finite true m e => js "-" ++ positive_toString m e
  end.

(** *** JSON values

    The result of [response.json()] and the argument of [JSON.stringify].
    An object is the list of its own properties in enumeration order. *)

Inductive JSON : Type :=
| JNull
| JBool (b : bool)
| JNum (n : number)
| JStr (s : jsstring)
| JArr (items : list JSON)
| JObj (fields : list (jsstring * JSON)).

(** A value that may be [undefined]: [None] is [undefined]. *)
Definition JSval := option JSON.

(** ToBoolean *)
Definition truthy (v : JSval) : bool :=
  match v with
  | None => false
  | Some JNull => false
  | Some (JBool b) => b
  | Some (JNum n) =>
      match n with
      | S754_zero _ | S754_nan => false
      | _ => true
      end
  | Some (JStr s) => match s with [] => false | _ => true end
  | Some (JArr _) => true
  | Some (JObj _) => true
  end.

Fixpoint assoc (k : jsstring) (fields : list (jsstring * JSON)) : JSval :=
  match fields with
  | [] => None
  | (k', v) :: r => if jsstring_eqb k k' then Some v else assoc k r
  end.

(** *** JSON.stringify *)

Definition hex_digit (d : N) : codeunit :=
  (if d <? 10 then 48 + d else 87 + d)%N.

(** UnicodeEscape: a backslash, [u] and four lowercase hexadecimal digits. *)
Definition UnicodeEscape (c : codeunit) : jsstring :=
  [92; 117;
   hex_digit ((c / 4096) mod 16); hex_digit ((c / 256) mod 16);
   hex_digit ((c / 16) mod 16); hex_digit (c mod 16)]%N.

Definition is_high_surrogate (c : codeunit) : bool :=
  ((0xD800 <=? c) && (c <=? 0xDBFF))%N.
Definition is_low_surrogate (c : codeunit) : bool :=
  ((0xDC00 <=? c) && (c <=? 0xDFFF))%N.

(** One code unit that is not part of a surrogate pair. *)
Definition quote_unit (c : codeunit) : jsstring :=
  (if c =? 8 then [92; 98]
   else if c =? 9 then [92; 116]
   else if c =? 10 then [92; 110]
   else if c =? 12 then [92; 102]
   else if c =? 13 then [92; 114]
   else if c =? 34 then [92; 34]
   else if c =? 92 then [92; 92]
   else if (c <? 32) || is_high_surrogate c || is_low_surrogate c
        then UnicodeEscape c
   else [c])%N.

Fixpoint quote_units (s : jsstring) : jsstring :=
  match s with
  | [] => []
  | c :: r =>
      if is_high_surrogate c then
        match r with
        | d :: r' =>
            if is_low_surrogate d then c :: d :: quote_units r'
            else quote_unit c ++ quote_units r
        | [] => quote_unit c
        end
      else quote_unit c ++ quote_units r
  end.

(** QuoteJSONString *)
Definition QuoteJSONString (s : jsstring) : jsstring :=
  [34%N] ++ quote_units s ++ [34%N].

Fixpoint JSON_stringify (v : JSON) : jsstring :=
  match v with
  | JNull => js "null"
  | JBool true => js "true"
  | JBool false => js "false"
  | JNum n =>
      match n with
      | S754_nan | S754_infinity _ => js "null"
      | _ => Number_toString n
      end
  | JStr s => QuoteJSONString s
  | JArr items =>
      js "[" ++ join (js ",") (map JSON_stringify items) ++ js "]"
  | JObj fields =>
      js "{"
      ++ join (js ",")
           (map (fun kv =>
                   QuoteJSONString (fst kv) ++ js ":" ++ JSON_stringify (snd kv))
                fields)
      ++ js "}"
  end.

(** Reading a property.  [null.k] throws; an object yields its own property
    or [undefined]; the other values have none of the properties the source
    reads ([ok], [channel], [is_archived]), so the read yields [undefined]. *)
Inductive Exception : Type :=
| NetworkFailure (reason : jsstring)  (* the promise of [fetch] rejects *)
| InvalidJSON                         (* the promise of [response.json()] rejects *)
| NullDereference                     (* a property read on [null] *)
| Error (message : jsstring).         (* [throw new Error(message)] *)

Inductive Settled (A : Type) : Type :=
| Fulfilled (a : A)
| Rejected (e : Exception).
Arguments Rejected {A} e.

Definition Get (o : JSON) (k : jsstring) : Settled JSval :=
  match o with
  | JNull => Rejected NullDereference
  | JObj fields => Fulfilled (assoc k fields)
  | _ => Fulfilled None
  end.

(** *** URLSearchParams: an ordered list of name/value pairs

    Names and values are USV strings: the constructor and [append] convert
    what they are given, replacing every surrogate code unit that is not
    part of a pair by U+FFFD. *)

Fixpoint USVString (s : jsstring) : jsstring :=
  match s with
  | [] => []
  | c :: r =>
      if is_high_surrogate c then
        match r with
        | d :: r' =>
            if is_low_surrogate d then c :: d :: USVString r'
            else 0xFFFD%N :: USVString r
        | [] => [0xFFFD%N]
        end
      else if is_low_surrogate c then 0xFFFD%N :: USVString r
      else c :: USVString r
  end.

Definition URLSearchParams := list (jsstring * jsstring).

(** [new URLSearchParams({ name: value, ... })] *)
Definition new_URLSearchParams (record : list (jsstring * jsstring))
  : URLSearchParams :=
  map (fun kv => (USVString (fst kv), USVString (snd kv))) record.

(** [params.append(name, value)] *)
Definition URLSearchParams_append
  (p : URLSearchParams) (name value : jsstring) : URLSearchParams :=
  p ++ [(USVString name, USVString value)].

(** *** fetch

    A call [fetch(url, init)] is recorded as a [Request].  A URL written as
    the template [`endpoint?${params}`] is kept as its two parts, [url] and
    [search]; [search] is [None] for a URL without a query.  [method] is
    [GET] when [init] gives none. *)

Inductive Method : Type := GET | POST.

Record Headers : Type := {
  Authorization : jsstring;
  Content_Type : jsstring
}.

Record Request : Type := {
  url : jsstring;
  search : option URLSearchParams;
  method : Method;
  headers : Headers;
  body : option jsstring
}.

(** What the provider sent back: the status line and the body decoded as
    JSON, [None] when the body is not JSON. *)
Record Response : Type := {
  status : Z;
  decoded : option JSON
}.

Inductive FetchResult : Type :=
| Unreachable (reason : jsstring)   (* DNS, connection or timeout failure *)
| Answered (r : Response).

(** The outside world: what a request is answered with, given the requests
    sent before it. *)
Definition Network := list Request -> Request -> FetchResult.

(** An async computation: it runs against a network, extends the log of the
    requests sent so far and settles. *)
Definition Promise (A : Type) : Type :=
  Network -> list Request -> Settled A * list Request.

Definition resolve {A} (a : A) : Promise A :=
  fun _ log => (Fulfilled a, log).

Definition settle {A} (r : Settled A) : Promise A :=
  fun _ log => (r, log).

(** [await c] followed by [k]: a rejection of [c] ends the computation. *)
Definition await {A B} (c : Promise A) (k : A -> Promise B) : Promise B :=
  fun net log =>
    match c net log with
    | (Fulfilled a, log') => k a net log'
    | (Rejected e, log') => (Rejected e, log')
    end.

Definition fetch (req : Request) : Promise Response :=
  fun net log =>
    (match net log req with
     | Unreachable reason => Rejected (NetworkFailure reason)
     | Answered r => Fulfilled r
     end, log ++ [req]).

(** [response.json()] *)
Definition Response_json (r : Response) : Promise JSON :=
  settle (match decoded r with
          | Some v => Fulfilled v
          | None => Rejected InvalidJSON
          end).

End JS.
Import JS.

Notation "x <- c ;; k" := (await c (fun x => k))
  (at level 61, c at next level, right associativity).

(* ================================================================== *)
(** ** src/slack/index.ts *)
(* ================================================================== *)

(** [interface Env]; a variable that is not set reads as [undefined]. *)
Record Env : Type := {
  SLACK_BOT_TOKEN : option jsstring;
  SLACK_TEAM_ID : option jsstring;
  SLACK_CHANNEL_IDS : option jsstring
}.

(** *** class SlackClient *)

Record SlackClient : Type := {
  botHeaders : Headers;
  teamId : jsstring;
  channelIds : option jsstring
}.

Definition new_SlackClient
  (botToken teamId : jsstring) (channelIds : option jsstring) : SlackClient :=
  {| botHeaders := {| Authorization := js "Bearer " ++ botToken;
                      Content_Type := js "application/json" |};
     teamId := teamId;
     channelIds := channelIds |}.

(** A default parameter value: used when the argument is [undefined]. *)
Definition default_arg {A} (d : A) (a : option A) : A :=
  match a with Some x => x | None => d end.

(** [fetch(`${endpoint}?${params}`, { headers: this.botHeaders })] *)
Definition get_request
  (this : SlackClient) (endpoint : jsstring) (params : URLSearchParams) : Request :=
  {| url := endpoint; search := Some params; method := GET;
     headers := botHeaders this; body := None |}.

(** [fetch(endpoint, { method: "POST", headers: this.botHeaders, body })] *)
Definition post_request
  (this : SlackClient) (endpoint : jsstring) (payload : JSON) : Request :=
  {| url := endpoint; search := None; method := POST;
     headers := botHeaders this; body := Some (JSON_stringify payload) |}.

(** [if (cursor) params.append("cursor", cursor)] *)
Definition append_cursor
  (params : URLSearchParams) (cursor : option jsstring) : URLSearchParams :=
  match cursor with
  | None | Some [] => params
  | Some c => URLSearchParams_append params (js "cursor") c
  end.

(** The open listing of [getChannels], lines 30-46. *)
Definition list_request
  (this : SlackClient) (limit : number) (cursor : option jsstring) : Request :=
  let params :=
    new_URLSearchParams
      [ (js "types", js "public_channel");
        (js "exclude_archived", js "true");
        (js "limit", Number_toString (Math_min limit (num 200)));
        (js "team_id", teamId this) ] in
  get_request this (js "https://slack.com/api/conversations.list")
    (append_cursor params cursor).

(** The request of one turn of the loop, lines 55-62. *)
Definition info_request (this : SlackClient) (channelId : jsstring) : Request :=
  let params := new_URLSearchParams [ (js "channel", channelId) ] in
  get_request this (js "https://slack.com/api/conversations.info") params.

(** Line 74: [data.ok && data.channel && !data.channel.is_archived], and
    the channel to push when it holds. *)
Definition accepted_channel (data : JSON) : Settled (option JSON) :=
  match Get data (js "ok") with
  | Rejected e => Rejected e
  | Fulfilled ok =>
      if truthy ok then
        match Get data (js "channel") with
        | Rejected e => Rejected e
        | Fulfilled channel =>
            if truthy channel then
              match channel with
              | Some ch =>
                  match Get ch (js "is_archived") with
                  | Rejected e => Rejected e
                  | Fulfilled is_archived =>
                      if negb (truthy is_archived)
                      then Fulfilled (Some ch) else Fulfilled None
                  end
              | None => Fulfilled None
              end
            else Fulfilled None
        end
      else Fulfilled None
  end.

(** The [for ... of] loop of lines 54-77; [channels] is the array built so
    far and [channels.push(c)] appends to it. *)
Fixpoint lookup_channels
  (this : SlackClient) (ids : list jsstring) (channels : list JSON)
  : Promise (list JSON) :=
  match ids with
  | [] => resolve channels
  | channelId :: rest =>
      response <- fetch (info_request this channelId) ;;
      responseData <- Response_json response ;;
      pushed <- settle (accepted_channel responseData) ;;
      match pushed with
      | Some channel => lookup_channels this rest (channels ++ [channel])
      | None => lookup_channels this rest channels
      end
  end.

Definition getChannels
  (this : SlackClient) (limit : option number) (cursor : option jsstring)
  : Promise JSON :=
  let limit := default_arg (num 100) limit in
  match channelIds this with
  | None | Some [] =>
      (* [!predefinedChannelIds]: undefined or the empty string *)
      response <- fetch (list_request this limit cursor) ;;
      Response_json response
  | Some predefinedChannelIds =>
      let predefinedChannelIdsArray :=
        map trim (split comma predefinedChannelIds) in
      channels <- lookup_channels this predefinedChannelIdsArray [] ;;
      resolve (JObj [ (js "ok", JBool true);
                      (js "channels", JArr channels);
                      (js "response_metadata",
                       JObj [ (js "next_cursor", JStr (js "")) ]) ])
  end.

Definition postMessage (this : SlackClient) (channel_id text : jsstring)
  : Promise JSON :=
  response <- fetch (post_request this (js "https://slack.com/api/chat.postMessage")
                       (JObj [ (js "channel", JStr channel_id);
                               (js "text", JStr text) ])) ;;
  Response_json response.

Definition postReply (this : SlackClient) (channel_id thread_ts text : jsstring)
  : Promise JSON :=
  response <- fetch (post_request this (js "https://slack.com/api/chat.postMessage")
                       (JObj [ (js "channel", JStr channel_id);
                               (js "thread_ts", JStr thread_ts);
                               (js "text", JStr text) ])) ;;
  Response_json response.

Definition addReaction (this : SlackClient) (channel_id timestamp reaction : jsstring)
  : Promise JSON :=
  response <- fetch (post_request this (js "https://slack.com/api/reactions.add")
                       (JObj [ (js "channel", JStr channel_id);
                               (js "timestamp", JStr timestamp);
                               (js "name", JStr reaction) ])) ;;
  Response_json response.

Definition getChannelHistory
  (this : SlackClient) (channel_id : jsstring) (limit : option number)
  : Promise JSON :=
  let limit := default_arg (num 10) limit in
  let params := new_URLSearchParams
                  [ (js "channel", channel_id);
                    (js "limit", Number_toString limit) ] in
  response <- fetch (get_request this
                       (js "https://slack.com/api/conversations.history") params) ;;
  Response_json response.

Definition getThreadReplies (this : SlackClient) (channel_id thread_ts : jsstring)
  : Promise JSON :=
  let params := new_URLSearchParams
                  [ (js "channel", channel_id); (js "ts", thread_ts) ] in
  response <- fetch (get_request this
                       (js "https://slack.com/api/conversations.replies") params) ;;
  Response_json response.

Definition getUsers
  (this : SlackClient) (limit : option number) (cursor : option jsstring)
  : Promise JSON :=
  let limit := default_arg (num 100) limit in
  let params := new_URLSearchParams
                  [ (js "limit", Number_toString (Math_min limit (num 200)));
                    (js "team_id", teamId this) ] in
  response <- fetch (get_request this (js "https://slack.com/api/users.list")
                       (append_cursor params cursor)) ;;
  Response_json response.

Definition getUserProfile (this : SlackClient) (user_id : jsstring) : Promise JSON :=
  let params := new_URLSearchParams
                  [ (js "user", user_id); (js "include_labels", js "true") ] in
  response <- fetch (get_request this
                       (js "https://slack.com/api/users.profile.get") params) ;;
  Response_json response.

(** *** class SlackMCP

    The protocol server is used through its contract: [server.tool(name,
    schema, handler)] registers a tool, and a handler is called with
    parameters that were validated against the schema. *)

Inductive ZodType : Type := z_string | z_number.

Record ZodParam : Type := {
  ztype : ZodType;
  optional : bool;
  describe : jsstring
}.

Definition Schema := list (jsstring * ZodParam).

(** The validated parameters of an invocation, as an object. *)
Definition Args := list (jsstring * JSON).

Record Tool : Type := {
  tool_name : jsstring;
  tool_schema : Schema;
  tool_handler : Args -> Promise JSON
}.

Record McpServer : Type := {
  server_name : jsstring;
  server_version : jsstring;
  registered_tools : list Tool
}.

Definition McpServer_tool
  (name : jsstring) (schema : Schema) (handler : Args -> Promise JSON)
  (server : McpServer) : McpServer :=
  {| server_name := server_name server;
     server_version := server_version server;
     registered_tools :=
       registered_tools server
       ++ [ {| tool_name := name; tool_schema := schema; tool_handler := handler |} ] |}.

(** Destructuring the parameters.  An optional parameter that was not
    given is [undefined].  A parameter the schema requires is present in
    validated parameters; the empty string stands for the case that
    validation excludes. *)
Definition optional_number (args : Args) (k : jsstring) : option number :=
  match assoc k args with Some (JNum n) => Some n | _ => None end.

Definition optional_string (args : Args) (k : jsstring) : option jsstring :=
  match assoc k args with Some (JStr s) => Some s | _ => None end.

Definition required_string (args : Args) (k : jsstring) : jsstring :=
  match assoc k args with Some (JStr s) => s | _ => [] end.

(** [{ content: [{ type: "text", text: JSON.stringify(response) }] }] *)
Definition text_content (response : JSON) : JSON :=
  JObj [ (js "content",
          JArr [ JObj [ (js "type", JStr (js "text"));
                        (js "text", JStr (JSON_stringify response)) ] ]) ].

Record SlackMCP : Type := {
  slackClient : SlackClient;
  server : McpServer
}.

Definition new_McpServer : McpServer :=
  {| server_name := js "Slack MCP Server";
     server_version := js "1.0.0";
     registered_tools := [] |}.

(** The constructor, lines 207-220. *)
Definition new_SlackMCP (env : Env) : Settled SlackMCP :=
  let botToken := SLACK_BOT_TOKEN env in
  let teamId := SLACK_TEAM_ID env in
  let channelIds := SLACK_CHANNEL_IDS env in
  match botToken, teamId with
  | None, _ | Some [], _ | _, None | _, Some [] =>
      (* [!botToken || !teamId] *)
      Rejected (Error (js
        "SLACK_BOT_TOKEN and SLACK_TEAM_ID environment variables are required"))
  | Some botToken, Some teamId =>
      Fulfilled {| slackClient := new_SlackClient botToken teamId channelIds;
                   server := new_McpServer |}
  end.

Definition z_param (t : ZodType) (opt : bool) (d : string) : ZodParam :=
  {| ztype := t; optional := opt; describe := js d |}.

Definition thread_ts_description : string :=
  "The timestamp of the parent message in the format '1234567890.123456'. Timestamps in the format without the period can be converted by adding the period such that 6 numbers come after it.".

Section Handlers.
Variable client : SlackClient.

Definition list_channels_handler (args : Args) : Promise JSON :=
    let limit := optional_number args (js "limit") in
    let cursor := optional_string args (js "cursor") in
    response <- getChannels client limit cursor ;;
    resolve (text_content response).

Definition post_message_handler (args : Args) : Promise JSON :=
    let channel_id := required_string args (js "channel_id") in
    let text := required_string args (js "text") in
    response <- postMessage client channel_id text ;;
    resolve (text_content response).

Definition reply_to_thread_handler (args : Args) : Promise JSON :=
    let channel_id := required_string args (js "channel_id") in
    let thread_ts := required_string args (js "thread_ts") in
    let text := required_string args (js "text") in
    response <- postReply client channel_id thread_ts text ;;
    resolve (text_content response).

Definition add_reaction_handler (args : Args) : Promise JSON :=
    let channel_id := required_string args (js "channel_id") in
    let timestamp := required_string args (js "timestamp") in
    let reaction := required_string args (js "reaction") in
    response <- addReaction client channel_id timestamp reaction ;;
    resolve (text_content response).

Definition get_channel_history_handler (args : Args) : Promise JSON :=
    let channel_id := required_string args (js "channel_id") in
    let limit := optional_number args (js "limit") in
    response <- getChannelHistory client channel_id limit ;;
    resolve (text_content response).

Definition get_thread_replies_handler (args : Args) : Promise JSON :=
    let channel_id := required_string args (js "channel_id") in
    let thread_ts := required_string args (js "thread_ts") in
    response <- getThreadReplies client channel_id thread_ts ;;
    resolve (text_content response).

Definition get_users_handler (args : Args) : Promise JSON :=
    let limit := optional_number args (js "limit") in
    let cursor := optional_string args (js "cursor") in
    response <- getUsers client limit cursor ;;
    resolve (text_content response).

Definition get_user_profile_handler (args : Args) : Promise JSON :=
    let user_id := required_string args (js "user_id") in
    response <- getUserProfile client user_id ;;
    resolve (text_content response).
End Handlers.

(** [init], lines 222-392: the calls of [this.server.tool] in order. *)
Definition init (this : SlackMCP) : SlackMCP :=
  let client := slackClient this in
  let s := server this in
  let s := McpServer_tool (js "slack_list_channels")
    [ (js "limit", z_param z_number true
         "Maximum number of channels to return (default 100, max 200)");
      (js "cursor", z_param z_string true
         "Pagination cursor for next page of results") ]
    (list_channels_handler client) s in
  let s := McpServer_tool (js "slack_post_message")
    [ (js "channel_id", z_param z_string false "The ID of the channel to post to");
      (js "text", z_param z_string false "The message text to post") ]
    (post_message_handler client) s in
  let s := McpServer_tool (js "slack_reply_to_thread")
    [ (js "channel_id", z_param z_string false
         "The ID of the channel containing the thread");
      (js "thread_ts", z_param z_string false thread_ts_description);
      (js "text", z_param z_string false "The reply text") ]
    (reply_to_thread_handler client) s in
  let s := McpServer_tool (js "slack_add_reaction")
    [ (js "channel_id", z_param z_string false
         "The ID of the channel containing the message");
      (js "timestamp", z_param z_string false
         "The timestamp of the message to react to");
      (js "reaction", z_param z_string false
         "The name of the emoji reaction (without ::)") ]
    (add_reaction_handler client) s in
  let s := McpServer_tool (js "slack_get_channel_history")
    [ (js "channel_id", z_param z_string false "The ID of the channel");
      (js "limit", z_param z_number true
         "Number of messages to retrieve (default 10)") ]
    (get_channel_history_handler client) s in
  let s := McpServer_tool (js "slack_get_thread_replies")
    [ (js "channel_id", z_param z_string false
         "The ID of the channel containing the thread");
      (js "thread_ts", z_param z_string false thread_ts_description) ]
    (get_thread_replies_handler client) s in
  let s := McpServer_tool (js "slack_get_users")
    [ (js "cursor", z_param z_string true
         "Pagination cursor for next page of results");
      (js "limit", z_param z_number true
         "Maximum number of users to return (default 100, max 200)") ]
    (get_users_handler client) s in
  let s := McpServer_tool (js "slack_get_user_profile")
    [ (js "user_id", z_param z_string false "The ID of the user") ]
    (get_user_profile_handler client) s in
  {| slackClient := client; server := s |}.

(** Start-up as the agent framework performs it: construct, then [init]. *)
Definition start (env : Env) : Settled SlackMCP :=
  match new_SlackMCP env with
  | Fulfilled agent => Fulfilled (init agent)
  | Rejected e => Rejected e
  end.

(** The tools a caller can reach after start-up. *)
Definition available_tools (started : Settled SlackMCP) : list Tool :=
  match started with
  | Fulfilled agent => registered_tools (server agent)
  | Rejected _ => []
  end.

(** *** The default export, lines 395-409

    [fetch(request, env, ctx)] routes on [new URL(request.url).pathname]:
    the SSE transport mounted at [/sse], the streamable transport mounted
    at [/mcp], or [new Response("Not found", { status: 404 })]. *)
Inductive Routed : Type :=
| ServeSSE (mount : jsstring)
| Serve (mount : jsstring)
| PlainResponse (text : jsstring) (status_code : Z).

Definition worker_fetch (pathname : jsstring) : Routed :=
  if jsstring_eqb pathname (js "/sse") || jsstring_eqb pathname (js "/sse/message")
  then ServeSSE (js "/sse")
  else if jsstring_eqb pathname (js "/mcp")
  then Serve (js "/mcp")
  else PlainResponse (js "Not found") 404.

(* ================================================================== *)
(** ** Vocabulary of the statements *)
(* ================================================================== *)

(** The operations of the workspace client: one constructor per method of
    [SlackClient], with the arguments of a call. *)
Inductive Operation : Type :=
| GetChannels (limit : option number) (cursor : option jsstring)
| PostMessage (channel_id text : jsstring)
| PostReply (channel_id thread_ts text : jsstring)
| AddReaction (channel_id timestamp reaction : jsstring)
| GetChannelHistory (channel_id : jsstring) (limit : option number)
| GetThreadReplies (channel_id thread_ts : jsstring)
| GetUsers (limit : option number) (cursor : option jsstring)
| GetUserProfile (user_id : jsstring).

Definition perform (this : SlackClient) (op : Operation) : Promise JSON :=
  match op with
  | GetChannels limit cursor => getChannels this limit cursor
  | PostMessage channel_id text => postMessage this channel_id text
  | PostReply channel_id thread_ts text => postReply this channel_id thread_ts text
  | AddReaction channel_id timestamp reaction =>
      addReaction this channel_id timestamp reaction
  | GetChannelHistory channel_id limit => getChannelHistory this channel_id limit
  | GetThreadReplies channel_id thread_ts => getThreadReplies this channel_id thread_ts
  | GetUsers limit cursor => getUsers this limit cursor
  | GetUserProfile user_id => getUserProfile this user_id
  end.

(** The agent as the constructor leaves it, and its tools after [init]. *)
Definition agent_of (this : SlackClient) : SlackMCP :=
  {| slackClient := this; server := new_McpServer |}.

Definition tools_of (this : SlackClient) : list Tool :=
  registered_tools (server (init (agent_of this))).

(** A schema without its descriptions: name, type, optional or required. *)
Definition shape (s : Schema) : list (jsstring * ZodType * bool) :=
  map (fun p => (fst p, ztype (snd p), optional (snd p))) s.

(** What a caller of a one-request method gets for an answer of the network. *)
Definition reply_of (a : FetchResult) : Settled JSON :=
  match a with
  | Unreachable reason => Rejected (NetworkFailure reason)
  | Answered r =>
      match decoded r with
      | Some v => Fulfilled v
      | None => Rejected InvalidJSON
      end
  end.

(** The answers a network gives to requests sent one after the other. *)
Fixpoint answers (net : Network) (log : list Request) (reqs : list Request)
  : list FetchResult :=
  match reqs with
  | [] => []
  | r :: rs => net log r :: answers net (log ++ [r]) rs
  end.

(** The requests a computation sent: what it added to the log. *)
Definition issued {A} (c : Promise A) (net : Network) (log : list Request)
  : list Request :=
  skipn (List.length log) (snd (c net log)).

(** [params.get(name)] on the query of a request. *)
Fixpoint URLSearchParams_get (p : URLSearchParams) (name : jsstring)
  : option jsstring :=
  match p with
  | [] => None
  | (k, v) :: r => if jsstring_eqb name k then Some v else URLSearchParams_get r name
  end.

Definition query_param (name : jsstring) (req : Request) : option jsstring :=
  match search req with
  | Some p => URLSearchParams_get p name
  | None => None
  end.

(** A credential or identifier that is not set, or set to the empty string. *)
Definition missing (v : option jsstring) : Prop :=
  v = None \/ v = Some [].

(** A double quote, and a word between double quotes. *)
Definition dquote : string := String (ascii_of_nat 34) EmptyString.
Definition quoted (s : string) : string := (dquote ++ s ++ dquote)%string.

(** Fixtures for the concrete scenarios. *)
Definition demo_client (channelIds : option jsstring) : SlackClient :=
  new_SlackClient (js "xoxb-test") (js "T1") channelIds.

Definition ok_body : JSON := JObj [ (js "ok", JBool true) ].

Definition ok_network : Network :=
  fun _ _ => Answered {| status := 200; decoded := Some ok_body |}.

(** [interface SlackChannelResponse], lines 65-71: [ok] is a boolean,
    [channel] is absent or an object, and its [is_archived] is absent or a
    boolean. *)
Definition is_SlackChannelResponse (data : JSON) : bool :=
  match data with
  | JObj fields =>
      match assoc (js "ok") fields with
      | Some (JBool _) =>
          match assoc (js "channel") fields with
          | None => true
          | Some (JObj channel) =>
              match assoc (js "is_archived") channel with
              | None | Some (JBool _) => true
              | _ => false
              end
          | _ => false
          end
      | _ => false
      end
  | _ => false
  end.

(** The channel of a lookup that returned [ok: true] with a channel that is
    not archived; [None] for any other lookup. *)
Definition listed_channel (data : JSON) : option JSON :=
  match data with
  | JObj fields =>
      match assoc (js "ok") fields, assoc (js "channel") fields with
      | Some (JBool true), Some (JObj channel) =>
          match assoc (js "is_archived") channel with
          | Some (JBool true) => None
          | _ => Some (JObj channel)
          end
      | _, _ => None
      end
  | _ => None
  end.

(** The elements that are present, in order. *)
Definition keep_some {A} (l : list (option A)) : list A :=
  flat_map (fun o => match o with Some x => [x] | None => [] end) l.

(** The answer carries this decoded body. *)
Definition answered_with (a : FetchResult) (b : JSON) : Prop :=
  exists st, a = Answered {| status := st; decoded := Some b |}.

(** A transport failure of any request the computation sends makes it
    reject with that failure. *)
Definition propagates_transport_failure {A} (c : Promise A) : Prop :=
  forall net log,
    exists sent,
      snd (c net log) = log ++ sent
      /\ forall reason,
           In (Unreachable reason) (answers net log sent) ->
           fst (c net log) = Rejected (NetworkFailure reason).

(** Strings of white space, strings without a comma, and an element with
    white space added around it. *)
Definition all_white_space (s : jsstring) : Prop :=
  Forall (fun c => is_white_space c = true) s.

Definition comma_free (s : jsstring) : Prop :=
  Forall (fun c => unit_eqb c comma = false) s.


(** The scenario of the specification: C1 is live, C2 is archived, any
    other channel is unknown to the provider. *)
Definition channel_body (id : string) (archived : bool) : JSON :=
  JObj [ (js "ok", JBool true);
         (js "channel", JObj [ (js "id", JStr (js id));
                               (js "is_archived", JBool archived) ]) ].

(** A body outside the declared response type. *)
Definition loose_body : JSON :=
  JObj [ (js "ok", JNum (num 1)); (js "channel", JStr (js "abc")) ].

Definition not_found_body : JSON :=
  JObj [ (js "ok", JBool false); (js "error", JStr (js "channel_not_found")) ].

Definition scenario_network : Network :=
  fun _ req =>
    match query_param (js "channel") req with
    | Some id =>
        if jsstring_eqb id (js "C1") then
          Answered {| status := 200; decoded := Some (channel_body "C1" false) |}
        else if jsstring_eqb id (js "C2") then
          Answered {| status := 200; decoded := Some (channel_body "C2" true) |}
        else Answered {| status := 200; decoded := Some not_found_body |}
    | None => Answered {| status := 200; decoded := Some ok_body |}
    end.

(** The requests an operation sends when nothing fails, in order: the
    pinned listing sends one lookup per id, every other call one request. *)
Definition requests_of (this : SlackClient) (op : Operation) : list Request :=
  match op with
  | GetChannels limit cursor =>
      match channelIds this with
      | None | Some [] => [ list_request this (default_arg (num 100) limit) cursor ]
      | Some ids => map (info_request this) (map trim (split comma ids))
      end
  | PostMessage channel_id text =>
      [ post_request this (js "https://slack.com/api/chat.postMessage")
          (JObj [ (js "channel", JStr channel_id); (js "text", JStr text) ]) ]
  | PostReply channel_id thread_ts text =>
      [ post_request this (js "https://slack.com/api/chat.postMessage")
          (JObj [ (js "channel", JStr channel_id);
                  (js "thread_ts", JStr thread_ts);
                  (js "text", JStr text) ]) ]
  | AddReaction channel_id timestamp reaction =>
      [ post_request this (js "https://slack.com/api/reactions.add")
          (JObj [ (js "channel", JStr channel_id);
                  (js "timestamp", JStr timestamp);
                  (js "name", JStr reaction) ]) ]
  | GetChannelHistory channel_id limit =>
      [ get_request this (js "https://slack.com/api/conversations.history")
          (new_URLSearchParams
             [ (js "channel", channel_id);
               (js "limit", Number_toString (default_arg (num 10) limit)) ]) ]
  | GetThreadReplies channel_id thread_ts =>
      [ get_request this (js "https://slack.com/api/conversations.replies")
          (new_URLSearchParams
             [ (js "channel", channel_id); (js "ts", thread_ts) ]) ]
  | GetUsers limit cursor =>
      [ get_request this (js "https://slack.com/api/users.list")
          (append_cursor
             (new_URLSearchParams
                [ (js "limit",
                   Number_toString (Math_min (default_arg (num 100) limit) (num 200)));
                  (js "team_id", teamId this) ])
             cursor) ]
  | GetUserProfile user_id =>
      [ get_request this (js "https://slack.com/api/users.profile.get")
          (new_URLSearchParams
             [ (js "user", user_id); (js "include_labels", js "true") ]) ]
  end.

(** The operations that change the workspace. *)
Definition mutating (op : Operation) : bool :=
  match op with
  | PostMessage _ _ | PostReply _ _ _ | AddReaction _ _ _ => true
  | _ => false
  end.

(** Why a turn of the lookup loop ends the loop, if it does: the transport
    failed, the body is not JSON, or the body is [null]. *)
Definition lookup_failure (a : FetchResult) : option Exception :=
  match a with
  | Unreachable reason => Some (NetworkFailure reason)
  | Answered r =>
      match decoded r with
      | None => Some InvalidJSON
      | Some JNull => Some NullDereference
      | Some _ => None
      end
  end.

(** The same network, with every answer given the status [st]. *)
Definition set_status (st : Z) (net : Network) : Network :=
  fun log req =>
    match net log req with
    | Unreachable reason => Unreachable reason
    | Answered r => Answered {| status := st; decoded := decoded r |}
    end.

(** A network that stops answering once [n] requests were sent. *)
Definition down_after (n : nat) (net : Network) : Network :=
  fun log req =>
    if Nat.ltb (List.length log) n then net log req
    else Unreachable (js "ECONNRESET").

(** A string with no surrogate code unit, paired or not. *)
Definition no_surrogate (s : jsstring) : Prop :=
  Forall (fun c => is_high_surrogate c || is_low_surrogate c = false) s.

(** Plain text: printable ASCII only. *)
Definition plain (s : jsstring) : Prop :=
  Forall (fun c => (32 <= c < 128)%N) s.

(** No code unit below 32: none of the C0 control characters. *)
Definition printable (s : jsstring) : Prop :=
  Forall (fun c => (32 <= c)%N) s.

(** An id with no white space at either end. *)
Definition no_surrounding_white_space (id : jsstring) : Prop :=
  (forall c rest, id = c :: rest -> is_white_space c = false)
  /\ (forall c front, id = front ++ [c] -> is_white_space c = false).

(* ================================================================== *)
(** ** Running one request *)
(* ================================================================== *)

Lemma fetch_json_run (req : Request) (net : Network) (log : list Request) :
  (response <- fetch req ;; Response_json response) net log
  = (reply_of (net log req), log ++ [req]).
Proof.
  unfold await, fetch, Response_json, settle, reply_of.
  destruct (net log req) as [reason | r]; [reflexivity |].
  destruct (decoded r); reflexivity.
Qed.

Lemma reply_of_answered (st : Z) (v : JSON) (a : FetchResult) :
  a = Answered {| status := st; decoded := Some v |} -> reply_of a = Fulfilled v.
Proof. intros ->. reflexivity. Qed.

Lemma issued_app {A} (c : Promise A) net log (l : list Request) :
  snd (c net log) = log ++ l -> issued c net log = l.
Proof.
  unfold issued. intros ->.
  rewrite skipn_app, skipn_all, Nat.sub_diag. reflexivity.
Qed.

Lemma js_inj (a b : string) : js a = js b -> a = b.
Proof.
  unfold js. revert b.
  induction a as [| x a IH]; intros [| y b]; simpl; intros H;
    try discriminate; [reflexivity |].
  injection H as Hxy Hab.
  f_equal; [| now apply IH].
  rewrite <- (ascii_N_embedding x), <- (ascii_N_embedding y).
  now rewrite Hxy.
Qed.

(** ** Numbers and their rendering *)

Lemma SFcompare_Lt_Gt (a b : number) :
  SFcompare a b = Some Lt -> SFcompare b a = Some Gt.
Proof.
  destruct a as [sa | sa | | sa ma ea], b as [sb | sb | | sb mb eb];
    cbn [SFcompare]; try discriminate;
    try (destruct sa; try destruct sb; intros H; try discriminate H; reflexivity);
    try (destruct sb; intros H; try discriminate H; reflexivity).
  destruct sa, sb; try discriminate; try reflexivity.
  - rewrite (Z.compare_antisym ea eb).
    destruct (ea ?= eb)%Z eqn:He; cbn [CompOpp]; try discriminate; try reflexivity.
    change (Pos.compare_cont Eq mb ma) with (Pos.compare_cont (CompOpp Eq) mb ma).
    rewrite <- (Pos.compare_cont_antisym ma mb Eq).
    destruct (Pos.compare_cont Eq ma mb); cbn [CompOpp]; try discriminate; reflexivity.
  - rewrite (Z.compare_antisym ea eb).
    destruct (ea ?= eb)%Z eqn:He; cbn [CompOpp]; try discriminate; try reflexivity.
    change (Pos.compare_cont Eq mb ma) with (Pos.compare_cont (CompOpp Eq) mb ma).
    rewrite <- (Pos.compare_cont_antisym ma mb Eq).
    destruct (Pos.compare_cont Eq ma mb); cbn [CompOpp]; try discriminate; reflexivity.
Qed.

Lemma SFltb_asym (a b : number) : SFltb a b = true -> SFltb b a = false.
Proof.
  unfold SFltb. destruct (SFcompare a b) as [[| |] |] eqn:Hab; try discriminate.
  intros _. now rewrite (SFcompare_Lt_Gt _ _ Hab).
Qed.

Lemma SFltb_not_nan (a b : number) :
  SFltb a b = true -> is_nan a = false /\ is_nan b = false.
Proof.
  unfold SFltb. destruct a, b; cbn; try discriminate; auto.
Qed.

(** Above the bound [Math.min] gives the bound; below it, the number. *)
Lemma Math_min_above (n bound : number) :
  SFltb bound n = true -> Math_min n bound = bound.
Proof.
  intros H. destruct (SFltb_not_nan _ _ H) as [Hb Hn].
  unfold Math_min. now rewrite Hn, Hb, H.
Qed.

Lemma Math_min_below (n bound : number) :
  SFltb n bound = true -> Math_min n bound = n.
Proof.
  intros H. destruct (SFltb_not_nan _ _ H) as [Hn Hb].
  unfold Math_min. now rewrite Hn, Hb, (SFltb_asym _ _ H), H.
Qed.

Lemma Forall_firstn_any {A} (P : A -> Prop) (k : nat) (l : list A) :
  Forall P l -> Forall P (firstn k l).
Proof.
  intros H. rewrite <- (firstn_skipn k l) in H. now apply Forall_app in H.
Qed.

Lemma Forall_skipn_any {A} (P : A -> Prop) (k : nat) (l : list A) :
  Forall P l -> Forall P (skipn k l).
Proof.
  intros H. rewrite <- (firstn_skipn k l) in H. now apply Forall_app in H.
Qed.

Lemma plain_literal (s : string) :
  Forall (fun a => (32 <= N_of_ascii a < 128)%N) (list_ascii_of_string s) ->
  plain (js s).
Proof. unfold plain, js. intros H. now apply Forall_map. Qed.

Lemma plain_app (a b : jsstring) : plain a -> plain b -> plain (a ++ b).
Proof. unfold plain. intros. apply Forall_app. now split. Qed.

Lemma plain_uint (d : Decimal.uint) : plain (js (NilEmpty.string_of_uint d)).
Proof.
  unfold plain, js.
  induction d; cbn; constructor; try assumption; now compute.
Qed.

Lemma plain_digits (z : Z) : plain (digits z).
Proof.
  unfold digits.
  destruct (Z.to_int z) as [d | d]; cbn [NilZero.string_of_int].
  - destruct d; try apply plain_uint. repeat constructor; now compute.
  - change (plain (45%N :: js (NilZero.string_of_uint d))).
    constructor; [now compute |].
    destruct d; try apply plain_uint. repeat constructor; now compute.
Qed.

Lemma plain_zeros (n : Z) : plain (zeros n).
Proof.
  unfold plain, zeros. induction (Z.to_nat n); cbn; constructor;
    [now compute | assumption].
Qed.

Lemma plain_format_decimal (ds : jsstring) (n k : Z) :
  plain ds -> plain (format_decimal ds n k).
Proof.
  intros Hds. unfold format_decimal.
  assert (Hdot : plain (js ".")) by (apply plain_literal; repeat constructor; now compute).
  assert (Hzero : plain (js "0.")) by (apply plain_literal; repeat constructor; now compute).
  assert (He : plain (js "e")) by (apply plain_literal; repeat constructor; now compute).
  assert (Hminus : plain (js "-")) by (apply plain_literal; repeat constructor; now compute).
  assert (Hplus : plain (js "+")) by (apply plain_literal; repeat constructor; now compute).
  assert (Hexp : plain (js "e" ++ (if (n - 1 <? 0)%Z then js "-" else js "+")
                        ++ digits (Z.abs (n - 1)))).
  { apply plain_app; [exact He |]. apply plain_app; [| apply plain_digits].
    destruct (n - 1 <? 0)%Z; assumption. }
  repeat match goal with
         | |- context [if ?c then _ else _] => destruct c
         end;
    repeat first
      [ assumption
      | apply plain_zeros
      | apply plain_digits
      | apply plain_app
      | apply Forall_firstn_any; exact Hds
      | apply Forall_skipn_any; exact Hds ].
Qed.

Lemma plain_positive_toString (m : positive) (e : Z) :
  plain (positive_toString m e).
Proof.
  unfold positive_toString.
  match goal with
  | |- context [shortest ?f ?v ?lo ?hi ?c ?n0 ?k] =>
      destruct (shortest f v lo hi c n0 k) as [[s n] k']
  end.
  apply plain_format_decimal, plain_digits.
Qed.

Lemma plain_Number_toString (x : number) : plain (Number_toString x).
Proof.
  destruct x as [s | [|] | | [|] m e]; cbn [Number_toString];
    try (apply plain_literal; repeat constructor; now compute);
    try apply plain_positive_toString.
  apply plain_app; [apply plain_literal; repeat constructor; now compute |].
  apply plain_positive_toString.
Qed.

(** A string without surrogate code units is a USV string already. *)
Lemma USVString_no_surrogate (s : jsstring) :
  no_surrogate s -> USVString s = s.
Proof.
  unfold no_surrogate. induction 1 as [| c r Hc _ IH]; [reflexivity |].
  cbn [USVString]. apply orb_false_iff in Hc as [-> ->]. now rewrite IH.
Qed.

Lemma USVString_plain (s : jsstring) : plain s -> USVString s = s.
Proof.
  intros H. apply USVString_no_surrogate.
  eapply Forall_impl; [| exact H]. cbn. intros c Hc.
  unfold is_high_surrogate, is_low_surrogate.
  destruct (N.leb_spec 0xD800 c); [lia |].
  destruct (N.leb_spec 0xDC00 c); [lia | reflexivity].
Qed.

Lemma USVString_Number_toString (x : number) :
  USVString (Number_toString x) = Number_toString x.
Proof. apply USVString_plain, plain_Number_toString. Qed.

(* ================================================================== *)
(** ** split, join and trim *)
(* ================================================================== *)

Lemma white_space_is_not_comma (c : codeunit) :
  is_white_space c = true -> unit_eqb c comma = false.
Proof.
  unfold unit_eqb, comma. intros Hws.
  destruct (N.eqb_spec c 44) as [-> | Hne]; [discriminate Hws | reflexivity].
Qed.

Lemma all_white_space_comma_free (s : jsstring) :
  all_white_space s -> comma_free s.
Proof.
  unfold all_white_space, comma_free. intros H.
  eapply Forall_impl; [| exact H]. exact white_space_is_not_comma.
Qed.

Lemma trimStart_white_space (l x : jsstring) :
  all_white_space l -> trimStart (l ++ x) = trimStart x.
Proof.
  induction 1 as [| c l Hc _ IH]; [reflexivity |].
  simpl. now rewrite Hc.
Qed.




Lemma split_comma_free (e : jsstring) : comma_free e -> split comma e = [e].
Proof.
  induction 1 as [| c e Hc _ IH]; [reflexivity |].
  simpl. now rewrite Hc, IH.
Qed.









(* ================================================================== *)
(** ** The lookup loop *)
(* ================================================================== *)

Lemma answers_app (net : Network) (log l1 l2 : list Request) :
  answers net log (l1 ++ l2)
  = answers net log l1 ++ answers net (log ++ l1) l2.
Proof.
  revert log. induction l1 as [| r l1 IH]; intros log; simpl.
  - now rewrite app_nil_r.
  - rewrite IH, <- app_assoc. reflexivity.
Qed.

(** One turn of the loop, by what the network answers. *)
Lemma lookup_channels_step
  (this : SlackClient) (id : jsstring) (rest : list jsstring)
  (channels : list JSON) (net : Network) (log : list Request) :
  lookup_channels this (id :: rest) channels net log
  = match reply_of (net log (info_request this id)) with
    | Rejected e => (Rejected e, log ++ [info_request this id])
    | Fulfilled data =>
        match accepted_channel data with
        | Rejected e => (Rejected e, log ++ [info_request this id])
        | Fulfilled (Some channel) =>
            lookup_channels this rest (channels ++ [channel]) net
              (log ++ [info_request this id])
        | Fulfilled None =>
            lookup_channels this rest channels net (log ++ [info_request this id])
        end
    end.
Proof.
  cbn [lookup_channels]. unfold await at 1 2, fetch, Response_json, settle, reply_of.
  destruct (net log (info_request this id)) as [reason | r]; [reflexivity |].
  destruct (decoded r) as [data |]; [| reflexivity].
  unfold await. destruct (accepted_channel data) as [[ch |] | e]; reflexivity.
Qed.

(** The loop sends the lookups of a prefix of the ids, all of them when it
    fulfils, and at least one when there is an id. *)
Lemma lookup_channels_sent
  (this : SlackClient) (ids : list jsstring) (channels : list JSON)
  (net : Network) (log : list Request) :
  exists k,
    snd (lookup_channels this ids channels net log)
    = log ++ map (info_request this) (firstn k ids)
    /\ (ids <> [] -> k <> 0%nat)
    /\ (forall result,
          fst (lookup_channels this ids channels net log) = Fulfilled result ->
          firstn k ids = ids).
Proof.
  revert channels log.
  induction ids as [| id rest IH]; intros channels log.
  - exists 0%nat. cbn. rewrite app_nil_r. repeat split. congruence.
  - rewrite lookup_channels_step.
    destruct (reply_of (net log (info_request this id))) as [data | e].
    2:{ exists 1%nat. cbn. repeat split; [discriminate | discriminate]. }
    destruct (accepted_channel data) as [[channel |] | e].
    3:{ exists 1%nat. cbn. repeat split; [discriminate | discriminate]. }
    + destruct (IH (channels ++ [channel]) (log ++ [info_request this id]))
        as (k & Hlog & _ & Hfull).
      exists (S k). rewrite Hlog, <- app_assoc. cbn.
      repeat split; [discriminate |].
      intros result Hres. now rewrite (Hfull result Hres).
    + destruct (IH channels (log ++ [info_request this id]))
        as (k & Hlog & _ & Hfull).
      exists (S k). rewrite Hlog, <- app_assoc. cbn.
      repeat split; [discriminate |].
      intros result Hres. now rewrite (Hfull result Hres).
Qed.

(** When every lookup is answered with a body the test of line 74 can
    read, the loop pushes the accepted channels in order. *)
Lemma lookup_channels_answered
  (this : SlackClient) (select : JSON -> option JSON) (net : Network)
  (ids : list jsstring) (bodies : list JSON)
  (channels : list JSON) (log : list Request) :
  Forall2 answered_with (answers net log (map (info_request this) ids)) bodies ->
  Forall (fun b => accepted_channel b = Fulfilled (select b)) bodies ->
  lookup_channels this ids channels net log
  = (Fulfilled (channels ++ keep_some (map select bodies)),
     log ++ map (info_request this) ids).
Proof.
  revert bodies channels log.
  induction ids as [| id rest IH]; intros bodies channels log Hans Hsel.
  - inversion Hans; subst. cbn. now rewrite !app_nil_r.
  - cbn [map answers] in Hans.
    inversion Hans as [| a b l l' [st Ha] Hrest]; subst.
    inversion Hsel as [| b' l'' Hb Hsel']; subst.
    rewrite lookup_channels_step, Ha. cbn [reply_of decoded]. rewrite Hb.
    cbn [map keep_some flat_map].
    destruct (select b) as [channel |].
    + rewrite (IH _ _ _ Hrest Hsel'). cbn [app].
      now rewrite <- !app_assoc.
    + rewrite (IH _ _ _ Hrest Hsel'). cbn [app].
      now rewrite <- !app_assoc.
Qed.

(** On a body of the declared response type the test of line 74 cannot
    throw, and it accepts exactly the listed channels. *)
Lemma accepted_channel_typed (data : JSON) :
  is_SlackChannelResponse data = true ->
  accepted_channel data = Fulfilled (listed_channel data).
Proof.
  unfold is_SlackChannelResponse, listed_channel, accepted_channel, Get.
  destruct data as [| b | n | s | items | fields]; try discriminate.
  destruct (assoc (js "ok") fields) as [[| [|] | | | |] |]; try discriminate;
    cbn [truthy]; [| reflexivity].
  destruct (assoc (js "channel") fields) as [[| b | n | s | items | channel] |];
    try discriminate; cbn [truthy]; [| reflexivity].
  destruct (assoc (js "is_archived") channel) as [[| [|] | | | |] |];
    try discriminate; reflexivity.
Qed.

(* ================================================================== *)
(** ** Transport failures *)
(* ================================================================== *)

Create HintDb transport discriminated.

Lemma ptf_settle {A} (r : Settled A) : propagates_transport_failure (settle r).
Proof.
  intros net log. exists []. cbn. rewrite app_nil_r. split; [reflexivity | tauto].
Qed.

Lemma ptf_resolve {A} (a : A) : propagates_transport_failure (resolve a).
Proof. exact (ptf_settle (Fulfilled a)). Qed.

Lemma ptf_Response_json (r : Response) :
  propagates_transport_failure (Response_json r).
Proof. apply ptf_settle. Qed.

Lemma ptf_fetch (req : Request) : propagates_transport_failure (fetch req).
Proof.
  intros net log. exists [req]. unfold fetch. cbn.
  split; [reflexivity |].
  intros reason [-> | []]. reflexivity.
Qed.

Lemma ptf_await {A B} (c : Promise A) (k : A -> Promise B) :
  propagates_transport_failure c ->
  (forall a, propagates_transport_failure (k a)) ->
  propagates_transport_failure (await c k).
Proof.
  intros Hc Hk net log.
  destruct (Hc net log) as (s1 & Hlog1 & Hfail1).
  unfold await. destruct (c net log) as [[a | e] log1]; cbn [fst snd] in *.
  - destruct (Hk a net log1) as (s2 & Hlog2 & Hfail2). subst log1.
    exists (s1 ++ s2). split; [now rewrite Hlog2, app_assoc |].
    intros reason. rewrite answers_app, in_app_iff.
    intros [H | H]; [discriminate (Hfail1 reason H) | exact (Hfail2 reason H)].
  - exists s1. cbn. split; [assumption |].
    intros reason H. specialize (Hfail1 reason H).
    injection Hfail1 as ->. reflexivity.
Qed.

Lemma ptf_ext {A} (c c' : Promise A) :
  (forall net log, c' net log = c net log) ->
  propagates_transport_failure c -> propagates_transport_failure c'.
Proof.
  intros Heq Hc net log. rewrite Heq. exact (Hc net log).
Qed.

#[local] Hint Resolve ptf_settle ptf_resolve ptf_Response_json ptf_fetch ptf_await
  : transport.

Lemma ptf_lookup_channels
  (this : SlackClient) (ids : list jsstring) (channels : list JSON) :
  propagates_transport_failure (lookup_channels this ids channels).
Proof.
  revert channels. induction ids as [| id rest IH]; intros channels; cbn.
  - auto with transport.
  - repeat (apply ptf_await; [auto with transport | intros ?]).
    match goal with |- context [match ?x with _ => _ end] => destruct x end;
      apply IH.
Qed.

#[local] Hint Resolve ptf_lookup_channels : transport.

Lemma ptf_perform (this : SlackClient) (op : Operation) :
  propagates_transport_failure (perform this op).
Proof.
  destruct op; cbn [perform];
    unfold getChannels, postMessage, postReply, addReaction, getChannelHistory,
      getThreadReplies, getUsers, getUserProfile.
  1: destruct (channelIds this) as [[| u s] |].
  all: repeat (apply ptf_await; [| intros ?]); auto with transport.
Qed.

Lemma ptf_issued {A} (c : Promise A) (net : Network) (log : list Request) :
  propagates_transport_failure c ->
  forall reason,
    In (Unreachable reason) (answers net log (issued c net log)) ->
    fst (c net log) = Rejected (NetworkFailure reason).
Proof.
  intros Hc reason. destruct (Hc net log) as (sent & Hlog & Hfail).
  erewrite issued_app by exact Hlog. apply Hfail.
Qed.

(* ================================================================== *)
(** ** What the handlers forward to *)
(* ================================================================== *)

(** Every operation but the pinned listing is one request, answered by the
    decoded body of its answer. *)
Lemma perform_one_request
  (this : SlackClient) (op : Operation) (net : Network) (log : list Request) :
  (forall limit cursor, op = GetChannels limit cursor -> missing (channelIds this)) ->
  exists req, perform this op net log = (reply_of (net log req), log ++ [req]).
Proof.
  intros Hopen.
  destruct op; cbn [perform];
    unfold getChannels, postMessage, postReply, addReaction, getChannelHistory,
      getThreadReplies, getUsers, getUserProfile.
  1: destruct (Hopen _ _ eq_refl) as [-> | ->].
  all: rewrite fetch_json_run; eexists; reflexivity.
Qed.

Lemma tool_handler_forwards (this : SlackClient) (t : Tool) (args : Args) :
  In t (tools_of this) ->
  exists op,
    (forall net log,
       tool_handler t args net log
       = (response <- perform this op ;; resolve (text_content response)) net log)
    /\ (forall limit cursor,
          op = GetChannels limit cursor -> tool_name t = js "slack_list_channels").
Proof.
  intros Hin. unfold tools_of, init, agent_of in Hin. cbn in Hin.
  repeat (destruct Hin as [<- | Hin]); [.. | contradiction]; cbn [tool_handler tool_name].
  - exists (GetChannels (optional_number args (js "limit"))
                        (optional_string args (js "cursor"))).
    split; [reflexivity | reflexivity].
  - exists (PostMessage (required_string args (js "channel_id"))
                        (required_string args (js "text"))).
    split; [reflexivity | discriminate].
  - exists (PostReply (required_string args (js "channel_id"))
                      (required_string args (js "thread_ts"))
                      (required_string args (js "text"))).
    split; [reflexivity | discriminate].
  - exists (AddReaction (required_string args (js "channel_id"))
                        (required_string args (js "timestamp"))
                        (required_string args (js "reaction"))).
    split; [reflexivity | discriminate].
  - exists (GetChannelHistory (required_string args (js "channel_id"))
                              (optional_number args (js "limit"))).
    split; [reflexivity | discriminate].
  - exists (GetThreadReplies (required_string args (js "channel_id"))
                             (required_string args (js "thread_ts"))).
    split; [reflexivity | discriminate].
  - exists (GetUsers (optional_number args (js "limit"))
                     (optional_string args (js "cursor"))).
    split; [reflexivity | discriminate].
  - exists (GetUserProfile (required_string args (js "user_id"))).
    split; [reflexivity | discriminate].
Qed.

(* ================================================================== *)
(** ** Posting: addReaction, postMessage, postReply *)
(* ================================================================== *)

(** C7.  [addReaction] sends one POST to the reaction endpoint whose body is
    the serialization of [{channel, timestamp, name}], and returns the
    decoded body of the answer unchanged; for ["C1"], ["123.456"], ["+1"]
    the body is the text [{"channel":"C1","timestamp":"123.456","name":"+1"}]. *)
Theorem addReaction_posts_reaction
  (this : SlackClient) (channel_id timestamp reaction : jsstring)
  (net : Network) (log : list Request) :
  let req :=
    {| url := js "https://slack.com/api/reactions.add";
       search := None;
       method := POST;
       headers := botHeaders this;
       body := Some (JSON_stringify
                       (JObj [ (js "channel", JStr channel_id);
                               (js "timestamp", JStr timestamp);
                               (js "name", JStr reaction) ])) |} in
  snd (addReaction this channel_id timestamp reaction net log) = log ++ [req]
  /\ (forall st v,
        net log req = Answered {| status := st; decoded := Some v |} ->
        fst (addReaction this channel_id timestamp reaction net log) = Fulfilled v)
  /\ map body (issued (addReaction this (js "C1") (js "123.456") (js "+1")) net log)
     = [ Some (js ("{" ++ quoted "channel" ++ ":" ++ quoted "C1" ++ ","
                   ++ quoted "timestamp" ++ ":" ++ quoted "123.456" ++ ","
                   ++ quoted "name" ++ ":" ++ quoted "+1" ++ "}")) ].
Proof.
  intros req. unfold addReaction, post_request.
  repeat split.
  - rewrite fetch_json_run. reflexivity.
  - intros st v Hnet. rewrite fetch_json_run. cbn [fst].
    fold req. now rewrite (reply_of_answered Hnet).
  - erewrite issued_app by (rewrite fetch_json_run; reflexivity).
    reflexivity.
Qed.

(** C5.  [postReply] and [postMessage] send to the same endpoint with the
    same method, headers and (absent) query; the body of the reply is the
    serialization of the fields of the message with the one field
    [thread_ts], holding the parent timestamp, added. *)
Theorem postReply_is_postMessage_plus_thread_ts
  (this : SlackClient) (channel_id thread_ts text : jsstring)
  (net : Network) (log : list Request) :
  exists message reply fields,
    snd (postMessage this channel_id text net log) = log ++ [message]
    /\ snd (postReply this channel_id thread_ts text net log) = log ++ [reply]
    /\ url reply = url message
    /\ method reply = method message
    /\ headers reply = headers message
    /\ search reply = search message
    /\ body message = Some (JSON_stringify (JObj fields))
    /\ fields = [ (js "channel", JStr channel_id); (js "text", JStr text) ]
    /\ body reply
       = Some (JSON_stringify
                 (JObj (firstn 1 fields
                        ++ [ (js "thread_ts", JStr thread_ts) ]
                        ++ skipn 1 fields))).
Proof.
  unfold postMessage, postReply.
  do 3 eexists.
  rewrite !fetch_json_run. cbn [snd].
  repeat split.
Qed.

(* ================================================================== *)
(** ** The limit of getChannelHistory *)
(* ================================================================== *)

(** C10.  [getChannelHistory] sends the limit as given (10 when absent),
    rendered by [toString] with no clamp, where [getUsers] and the open
    listing of [getChannels] send the smaller of the limit and 200; a limit
    above 200 reaches the history request unchanged, where the other two
    send 200, a different number. *)
Theorem getChannelHistory_limit_unclamped
  (this : SlackClient) (channel_id : jsstring) (limit : option number)
  (net : Network) (log : list Request) :
  let open := {| botHeaders := botHeaders this; teamId := teamId this;
                 channelIds := None |} in
  snd (getChannelHistory this channel_id limit net log)
  = log ++ [ {| url := js "https://slack.com/api/conversations.history";
                search := Some [ (js "channel", USVString channel_id);
                                 (js "limit",
                                  Number_toString
                                    (match limit with Some n => n | None => num 10 end)) ];
                method := GET;
                headers := botHeaders this;
                body := None |} ]
  /\ (forall cursor,
        map (query_param (js "limit")) (issued (getUsers this limit cursor) net log)
        = [ Some (Number_toString
                    (Math_min (match limit with Some n => n | None => num 100 end)
                       (num 200))) ])
  /\ (forall cursor,
        map (query_param (js "limit")) (issued (getChannels open limit cursor) net log)
        = [ Some (Number_toString
                    (Math_min (match limit with Some n => n | None => num 100 end)
                       (num 200))) ])
  /\ (forall n, limit = Some n -> SFltb (num 200) n = true ->
        map (query_param (js "limit"))
            (issued (getChannelHistory this channel_id limit) net log)
        = [ Some (Number_toString n) ]
        /\ Math_min n (num 200) = num 200
        /\ n <> num 200).
Proof.
  intros open.
  assert (Hist : snd (getChannelHistory this channel_id limit net log)
                 = log ++ [ {| url := js "https://slack.com/api/conversations.history";
                               search := Some [ (js "channel", USVString channel_id);
                                                (js "limit",
                                                 Number_toString (default_arg (num 10) limit)) ];
                               method := GET;
                               headers := botHeaders this;
                               body := None |} ]).
  { unfold getChannelHistory. rewrite fetch_json_run.
    unfold get_request, new_URLSearchParams. cbn [map fst snd].
    rewrite USVString_Number_toString. reflexivity. }
  split; [destruct limit; exact Hist |].
  split; [| split].
  - intros cursor.
    erewrite issued_app
      by (unfold getUsers; rewrite fetch_json_run; reflexivity).
    unfold get_request, new_URLSearchParams, query_param. cbn [map fst snd search].
    rewrite USVString_Number_toString.
    destruct limit, cursor as [[| u c] |]; reflexivity.
  - intros cursor.
    erewrite issued_app
      by (unfold getChannels; cbn [open channelIds]; rewrite fetch_json_run;
          reflexivity).
    unfold list_request, get_request, new_URLSearchParams, query_param.
    cbn [map fst snd search].
    rewrite USVString_Number_toString.
    destruct limit, cursor as [[| u c] |]; reflexivity.
  - intros n -> Hn.
    erewrite issued_app by exact Hist.
    split; [reflexivity |].
    split; [now apply Math_min_above |].
    intros ->. rewrite (SFltb_asym _ _ Hn) in Hn. discriminate Hn.
Qed.

(* ================================================================== *)
(** ** The open listing of getChannels *)
(* ================================================================== *)

(** C3, as stated, fails for two cursors that can be supplied: the empty
    string, for which the listing request carries no cursor parameter, and
    a string holding a lone surrogate, which is sent as U+FFFD. *)
Lemma getChannels_omits_empty_cursor :
  (exists req,
     issued (getChannels (demo_client None) (Some (num 50)) (Some (js ""))) ok_network []
     = [req]
     /\ search req = Some [ (js "types", js "public_channel");
                            (js "exclude_archived", js "true");
                            (js "limit", js "50");
                            (js "team_id", js "T1") ]
     /\ query_param (js "cursor") req = None)
  /\ (exists req,
        issued (getChannels (demo_client None) (Some (num 50)) (Some [0xD800%N]))
          ok_network []
        = [req]
        /\ query_param (js "cursor") req = Some [0xFFFD%N]
        /\ [0xFFFD%N] <> [0xD800%N]).
Proof.
  split; eexists; (split; [| split]).
  - apply issued_app. unfold getChannels, demo_client.
    cbn [new_SlackClient channelIds]. rewrite fetch_json_run. reflexivity.
  - vm_compute. reflexivity.
  - vm_compute. reflexivity.
  - apply issued_app. unfold getChannels, demo_client.
    cbn [new_SlackClient channelIds]. rewrite fetch_json_run. reflexivity.
  - vm_compute. reflexivity.
  - discriminate.
Qed.

(** C3, amended.  With no pinned list, [getChannels] sends exactly one
    request, to the listing endpoint, with [types=public_channel],
    [exclude_archived=true], the rendering of the smaller of the limit (100
    when absent) and 200, the team id and, when a non-empty cursor is
    given, that cursor, each string as [URLSearchParams] stores it: a
    cursor with no surrogate code unit is unchanged, a lone surrogate
    becomes U+FFFD; it returns the decoded body of the answer unmodified. *)
Theorem getChannels_open_listing
  (this : SlackClient) (limit : option number) (cursor : option jsstring)
  (net : Network) (log : list Request) :
  channelIds this = None ->
  let req :=
    {| url := js "https://slack.com/api/conversations.list";
       search :=
         Some ([ (js "types", js "public_channel");
                 (js "exclude_archived", js "true");
                 (js "limit",
                  Number_toString
                    (Math_min (match limit with Some n => n | None => num 100 end)
                       (num 200)));
                 (js "team_id", USVString (teamId this)) ]
               ++ match cursor with
                  | Some (u :: c) => [ (js "cursor", USVString (u :: c)) ]
                  | _ => []
                  end);
       method := GET;
       headers := botHeaders this;
       body := None |} in
  snd (getChannels this limit cursor net log) = log ++ [req]
  /\ (forall st v,
        net log req = Answered {| status := st; decoded := Some v |} ->
        fst (getChannels this limit cursor net log) = Fulfilled v)
  /\ (forall c, cursor = Some c -> no_surrogate c -> USVString c = c).
Proof.
  intros Hopen req.
  assert (Hreq : list_request this (default_arg (num 100) limit) cursor = req).
  { unfold list_request, get_request, new_URLSearchParams, append_cursor,
      URLSearchParams_append, req.
    cbn [map fst snd]. rewrite USVString_Number_toString.
    destruct limit, cursor as [[| u c] |]; reflexivity. }
  unfold getChannels. rewrite Hopen, fetch_json_run, Hreq.
  split; [reflexivity |].
  split.
  - intros st v Hnet. cbn [fst]. now rewrite (reply_of_answered Hnet).
  - intros c _ Hc. now apply USVString_no_surrogate.
Qed.

Lemma getChannels_open_listing_witness :
  snd (getChannels (demo_client None) (Some (num 500)) (Some (js "dGVhbTpD")) ok_network [])
  = [ {| url := js "https://slack.com/api/conversations.list";
         search := Some [ (js "types", js "public_channel");
                          (js "exclude_archived", js "true");
                          (js "limit", js "200");
                          (js "team_id", js "T1");
                          (js "cursor", js "dGVhbTpD") ];
         method := GET;
         headers := {| Authorization := js "Bearer xoxb-test";
                       Content_Type := js "application/json" |};
         body := None |} ]
  /\ fst (getChannels (demo_client None) (Some (num 500)) (Some (js "dGVhbTpD")) ok_network [])
     = Fulfilled ok_body.
Proof.
  generalize (@getChannels_open_listing (demo_client None) (Some (num 500))
                (Some (js "dGVhbTpD")) ok_network [] eq_refl).
  vm_compute. intros (Hlog & Hret & _).
  split.
  - exact Hlog.
  - exact (Hret 200%Z ok_body eq_refl).
Defined.

(* ================================================================== *)
(** ** Construction and the tool registry *)
(* ================================================================== *)

(** C6.  When the bot token or the team id is missing (not set, or empty)
    the constructor throws the configuration error and no tool becomes
    available; otherwise both are set and the constructor succeeds with a
    client holding exactly that token, team id and channel-id string, and a
    server on which no tool is registered yet. *)
Theorem constructor_requires_credentials (env : Env) :
  (missing (SLACK_BOT_TOKEN env) \/ missing (SLACK_TEAM_ID env) ->
   new_SlackMCP env
   = Rejected (Error (js
       "SLACK_BOT_TOKEN and SLACK_TEAM_ID environment variables are required"))
   /\ available_tools (start env) = [])
  /\ (~ (missing (SLACK_BOT_TOKEN env) \/ missing (SLACK_TEAM_ID env)) ->
      exists botToken teamId,
        SLACK_BOT_TOKEN env = Some botToken
        /\ SLACK_TEAM_ID env = Some teamId
        /\ new_SlackMCP env
           = Fulfilled
               {| slackClient :=
                    {| botHeaders :=
                         {| Authorization := js "Bearer " ++ botToken;
                            Content_Type := js "application/json" |};
                       teamId := teamId;
                       channelIds := SLACK_CHANNEL_IDS env |};
                  server := {| server_name := js "Slack MCP Server";
                               server_version := js "1.0.0";
                               registered_tools := [] |} |}).
Proof.
  unfold missing, start, new_SlackMCP.
  destruct env as [[[| b bs] |] [[| t ts] |] ids]; cbn [SLACK_BOT_TOKEN SLACK_TEAM_ID SLACK_CHANNEL_IDS].
  all: split;
    [ intros [[H | H] | [H | H]]; try discriminate H; split; reflexivity
    | intros H ].
  all: try (exfalso; apply H; auto; fail).
  exists (b :: bs), (t :: ts). repeat split.
Qed.

(** C4, as stated, fails on the count: [init] registers eight tools. *)
Lemma init_registers_eight_not_nine :
  List.length (tools_of (demo_client None)) = 8%nat
  /\ List.length (tools_of (demo_client None)) <> 9%nat.
Proof. split; [reflexivity | discriminate]. Qed.

(** C4, amended.  [init] registers exactly eight tools, with the names and
    parameter schemas below; every handler forwards to one client operation
    and, when that operation fulfils, returns one text content block holding
    the serialization of its response; and every client operation is the one
    some tool forwards to. *)
Theorem init_registers_one_tool_per_operation (this : SlackClient) :
  map (fun t => (tool_name t, shape (tool_schema t))) (tools_of this)
  = [ (js "slack_list_channels",
       [ (js "limit", z_number, true); (js "cursor", z_string, true) ]);
      (js "slack_post_message",
       [ (js "channel_id", z_string, false); (js "text", z_string, false) ]);
      (js "slack_reply_to_thread",
       [ (js "channel_id", z_string, false); (js "thread_ts", z_string, false);
         (js "text", z_string, false) ]);
      (js "slack_add_reaction",
       [ (js "channel_id", z_string, false); (js "timestamp", z_string, false);
         (js "reaction", z_string, false) ]);
      (js "slack_get_channel_history",
       [ (js "channel_id", z_string, false); (js "limit", z_number, true) ]);
      (js "slack_get_thread_replies",
       [ (js "channel_id", z_string, false); (js "thread_ts", z_string, false) ]);
      (js "slack_get_users",
       [ (js "cursor", z_string, true); (js "limit", z_number, true) ]);
      (js "slack_get_user_profile",
       [ (js "user_id", z_string, false) ]) ]
  /\ List.length (tools_of this) = 8%nat
  /\ (forall t args, In t (tools_of this) ->
        exists op, forall net log,
          tool_handler t args net log
          = match perform this op net log with
            | (Fulfilled response, log') =>
                (Fulfilled
                   (JObj [ (js "content",
                            JArr [ JObj [ (js "type", JStr (js "text"));
                                          (js "text",
                                           JStr (JSON_stringify response)) ] ]) ]),
                 log')
            | (Rejected e, log') => (Rejected e, log')
            end)
  /\ (forall op, exists t args,
        In t (tools_of this)
        /\ forall net log,
             tool_handler t args net log
             = (response <- perform this op ;; resolve (text_content response))
                 net log).
Proof.
  split; [reflexivity |].
  split; [reflexivity |].
  split.
  - intros t args Hin.
    destruct (@tool_handler_forwards this t args Hin) as (op & Hfwd & _).
    exists op. intros net log. rewrite Hfwd. unfold await, resolve.
    destruct (perform this op net log) as [[r | e] l]; reflexivity.
  - intros op.
    pose (opt_num := fun (k : jsstring) (v : option number) =>
            match v with Some n => [ (k, JNum n) ] | None => [] end).
    pose (opt_str := fun (k : jsstring) (v : option jsstring) =>
            match v with Some x => [ (k, JStr x) ] | None => [] end).
    destruct op as [limit cursor | channel_id text | channel_id thread_ts text
                   | channel_id timestamp reaction | channel_id limit
                   | channel_id thread_ts | limit cursor | user_id].
    + exists (nth 0 (tools_of this) (Build_Tool [] [] (fun _ => resolve JNull))),
             (opt_num (js "limit") limit ++ opt_str (js "cursor") cursor).
      split; [cbn; tauto |].
      intros net log. destruct limit, cursor; reflexivity.
    + exists (nth 1 (tools_of this) (Build_Tool [] [] (fun _ => resolve JNull))),
             [ (js "channel_id", JStr channel_id); (js "text", JStr text) ].
      split; [cbn; tauto | reflexivity].
    + exists (nth 2 (tools_of this) (Build_Tool [] [] (fun _ => resolve JNull))),
             [ (js "channel_id", JStr channel_id); (js "thread_ts", JStr thread_ts);
               (js "text", JStr text) ].
      split; [cbn; tauto | reflexivity].
    + exists (nth 3 (tools_of this) (Build_Tool [] [] (fun _ => resolve JNull))),
             [ (js "channel_id", JStr channel_id); (js "timestamp", JStr timestamp);
               (js "reaction", JStr reaction) ].
      split; [cbn; tauto | reflexivity].
    + exists (nth 4 (tools_of this) (Build_Tool [] [] (fun _ => resolve JNull))),
             ((js "channel_id", JStr channel_id) :: opt_num (js "limit") limit).
      split; [cbn; tauto |].
      intros net log. destruct limit; reflexivity.
    + exists (nth 5 (tools_of this) (Build_Tool [] [] (fun _ => resolve JNull))),
             [ (js "channel_id", JStr channel_id); (js "thread_ts", JStr thread_ts) ].
      split; [cbn; tauto | reflexivity].
    + exists (nth 6 (tools_of this) (Build_Tool [] [] (fun _ => resolve JNull))),
             (opt_num (js "limit") limit ++ opt_str (js "cursor") cursor).
      split; [cbn; tauto |].
      intros net log. destruct limit, cursor; reflexivity.
    + exists (nth 7 (tools_of this) (Build_Tool [] [] (fun _ => resolve JNull))),
             [ (js "user_id", JStr user_id) ].
      split; [cbn; tauto | reflexivity].
Qed.

(* ================================================================== *)
(** ** The pinned listing of getChannels *)
(* ================================================================== *)

Lemma split_nonempty (sep : codeunit) (s : jsstring) : split sep s <> [].
Proof.
  destruct s as [| c r]; simpl; [discriminate |].
  destruct (unit_eqb c sep); [discriminate |].
  destruct (split sep r); discriminate.
Qed.

Lemma getChannels_pinned_run
  (this : SlackClient) (u : codeunit) (s : jsstring)
  (limit : option number) (cursor : option jsstring)
  (net : Network) (log : list Request) :
  channelIds this = Some (u :: s) ->
  getChannels this limit cursor net log
  = match lookup_channels this (map trim (split comma (u :: s))) [] net log with
    | (Fulfilled channels, log') =>
        (Fulfilled (JObj [ (js "ok", JBool true);
                           (js "channels", JArr channels);
                           (js "response_metadata",
                            JObj [ (js "next_cursor", JStr (js "")) ]) ]),
         log')
    | (Rejected e, log') => (Rejected e, log')
    end.
Proof.
  intros Hpinned. unfold getChannels. rewrite Hpinned. unfold await, resolve.
  destruct (lookup_channels this _ [] net log) as [[channels | e] log'];
    reflexivity.
Qed.

(** C1, as stated, fails in two ways.  A lookup that gets no answer ends
    the call: with C1 answered [ok: true], not archived, and the network
    down for C2, the call rejects instead of listing C1.  And the test of
    line 74 reads truthiness: a body [{ok: 1, channel: "abc"}] is listed,
    though it is not [ok: true] with a channel record. *)
Lemma pinned_listing_rejects_and_lists_by_truthiness :
  getChannels (demo_client (Some (js "C1,C2"))) None None
    (down_after 1 scenario_network) []
  = (Rejected (NetworkFailure (js "ECONNRESET")),
     [ info_request (demo_client (Some (js "C1,C2"))) (js "C1");
       info_request (demo_client (Some (js "C1,C2"))) (js "C2") ])
  /\ fst (getChannels (demo_client (Some (js "C1"))) None None
            (fun _ _ => Answered {| status := 200; decoded := Some loose_body |}) [])
     = Fulfilled (JObj [ (js "ok", JBool true);
                         (js "channels", JArr [ JStr (js "abc") ]);
                         (js "response_metadata",
                          JObj [ (js "next_cursor", JStr (js "")) ]) ])
  /\ listed_channel loose_body = None.
Proof.
  split; [vm_compute; reflexivity |].
  split; [vm_compute; reflexivity | reflexivity].
Qed.

(** C1, amended.  With a pinned list configured, when every lookup is
    answered with a body of the declared response type, [getChannels]
    returns [{ok: true, channels, response_metadata: {next_cursor: ""}}]
    where [channels] holds, in the order of the pinned list, the channel of
    each lookup that returned [ok: true] with a channel that is not
    archived, and no other; the limit and the cursor do not change the
    result. *)
Theorem getChannels_pinned_listing
  (this : SlackClient) (ids_string : jsstring) (bodies : list JSON)
  (limit : option number) (cursor : option jsstring)
  (net : Network) (log : list Request) :
  channelIds this = Some ids_string ->
  ids_string <> [] ->
  let lookup := fun id =>
    {| url := js "https://slack.com/api/conversations.info";
       search := Some [ (js "channel", USVString id) ];
       method := GET;
       headers := botHeaders this;
       body := None |} in
  let lookups := map lookup (map trim (split comma ids_string)) in
  Forall2 answered_with (answers net log lookups) bodies ->
  Forall (fun b => is_SlackChannelResponse b = true) bodies ->
  getChannels this limit cursor net log
  = (Fulfilled (JObj [ (js "ok", JBool true);
                       (js "channels", JArr (keep_some (map listed_channel bodies)));
                       (js "response_metadata",
                        JObj [ (js "next_cursor", JStr (js "")) ]) ]),
     log ++ lookups)
  /\ forall limit' cursor',
       getChannels this limit' cursor' net log
       = getChannels this limit cursor net log.
Proof.
  intros Hpinned Hne lookup lookups Hans Htyped.
  destruct ids_string as [| u s]; [contradiction |].
  change lookups
    with (map (info_request this) (map trim (split comma (u :: s)))) in Hans |- *.
  split.
  - rewrite (@getChannels_pinned_run this _ _ limit cursor net log Hpinned).
    rewrite (@lookup_channels_answered this listed_channel net _ bodies [] log Hans).
    + reflexivity.
    + eapply Forall_impl; [| exact Htyped]. exact accepted_channel_typed.
  - intros limit' cursor'.
    now rewrite (@getChannels_pinned_run this _ _ limit cursor net log Hpinned),
      (@getChannels_pinned_run this _ _ limit' cursor' net log Hpinned).
Qed.

Lemma getChannels_pinned_listing_witness :
  getChannels (demo_client (Some (js "C1,C2"))) None None scenario_network []
  = (Fulfilled
       (JObj [ (js "ok", JBool true);
               (js "channels",
                JArr [ JObj [ (js "id", JStr (js "C1"));
                              (js "is_archived", JBool false) ] ]);
               (js "response_metadata",
                JObj [ (js "next_cursor", JStr (js "")) ]) ]),
     [ info_request (demo_client (Some (js "C1,C2"))) (js "C1");
       info_request (demo_client (Some (js "C1,C2"))) (js "C2") ]).
Proof.
  refine (proj1 (@getChannels_pinned_listing
                   (demo_client (Some (js "C1,C2"))) (js "C1,C2")
                   [ channel_body "C1" false; channel_body "C2" true ]
                   None None scenario_network [] eq_refl _ _ _)).
  - discriminate.
  - repeat constructor; exists 200%Z; reflexivity.
  - repeat constructor.
Defined.

(** C8.  The pinned mode (at least one request, every request a channel
    lookup) is the mode of [getChannels] exactly when the configured
    channel-id string is present and non-empty; with the empty string
    [getChannels] behaves as with no string at all: one request, to the
    listing endpoint. *)
Theorem pinned_mode_iff_nonempty_ids
  (this : SlackClient) (limit : option number) (cursor : option jsstring)
  (net : Network) (log : list Request) :
  let sent := issued (getChannels this limit cursor) net log in
  let unpinned := {| botHeaders := botHeaders this; teamId := teamId this;
                     channelIds := None |} in
  ((exists ids, channelIds this = Some ids /\ ids <> [])
   <-> (sent <> []
        /\ Forall (fun req => url req = js "https://slack.com/api/conversations.info")
             sent))
  /\ (channelIds this = Some [] ->
      getChannels this limit cursor net log = getChannels unpinned limit cursor net log
      /\ exists req,
           sent = [req] /\ url req = js "https://slack.com/api/conversations.list").
Proof.
  intros sent unpinned.
  assert (Hopen : forall c : SlackClient,
             channelIds c = None \/ channelIds c = Some [] ->
             snd (getChannels c limit cursor net log)
             = log ++ [list_request c (default_arg (num 100) limit) cursor]).
  { intros c [H | H]; unfold getChannels; rewrite H, fetch_json_run; reflexivity. }
  split; [split |].
  - intros (ids & Hpinned & Hne).
    destruct ids as [| u s]; [contradiction |].
    destruct (lookup_channels_sent this (map trim (split comma (u :: s))) [] net log)
      as (k & Hlog & Hk & _).
    assert (Hsent : sent = map (info_request this)
                             (firstn k (map trim (split comma (u :: s))))).
    { apply issued_app. rewrite (@getChannels_pinned_run this _ _ limit cursor net log Hpinned).
      destruct (lookup_channels this _ [] net log) as [[channels | e] log'];
        exact Hlog. }
    rewrite Hsent. split.
    + destruct k as [| k]; [exfalso; apply Hk; [| reflexivity] |].
      * intros Habs. apply map_eq_nil in Habs. exact (split_nonempty _ _ Habs).
      * pose proof (@split_nonempty comma (u :: s)) as Hsplit.
        destruct (split comma (u :: s)); [contradiction | discriminate].
    + apply Forall_forall. intros req Hin.
      apply in_map_iff in Hin as (id & <- & _). reflexivity.
  - intros [Hne Hall].
    destruct (channelIds this) as [[| u s] |] eqn:Hids.
    2:{ exists (u :: s). split; [reflexivity | discriminate]. }
    all: exfalso; unfold sent in Hall;
      erewrite issued_app in Hall by (apply Hopen; auto);
      inversion Hall as [| ? ? Hurl _]; subst;
      apply js_inj in Hurl; discriminate Hurl.
  - intros Hempty. split.
    + unfold getChannels. rewrite Hempty. reflexivity.
    + eexists. split.
      * apply issued_app. apply Hopen. now right.
      * reflexivity.
Qed.



(* ================================================================== *)
(** ** Provider errors and transport failures *)
(* ================================================================== *)

(** C2, as stated, fails for [getChannels] in pinned mode: the lookup of an
    unknown channel is answered with an [ok: false] body, and the operation
    returns a listing with [ok: true] instead of that body. *)
Lemma pinned_listing_hides_provider_error :
  answers scenario_network []
    (issued (getChannels (demo_client (Some (js "C404"))) None None) scenario_network [])
  = [ Answered {| status := 200; decoded := Some not_found_body |} ]
  /\ fst (getChannels (demo_client (Some (js "C404"))) None None scenario_network [])
     = Fulfilled (JObj [ (js "ok", JBool true);
                         (js "channels", JArr []);
                         (js "response_metadata",
                          JObj [ (js "next_cursor", JStr (js "")) ]) ])
  /\ fst (getChannels (demo_client (Some (js "C404"))) None None scenario_network [])
     <> Fulfilled not_found_body.
Proof.
  split; [reflexivity |]. split; [reflexivity |].
  intros H. vm_compute in H. discriminate H.
Qed.

(** C2, amended.  Every operation of the client other than [getChannels]
    with a pinned list sends one request and returns the decoded body of
    its answer unchanged, whatever the body says ([ok: false] included),
    and the handler of its tool returns that body wrapped as text content;
    for every operation and every handler, the pinned listing included, a
    transport failure of a request it sends makes it reject with that
    failure. *)
Theorem provider_body_passes_through
  (this : SlackClient) (net : Network) (log : list Request) :
  (forall op,
     (forall reason,
        In (Unreachable reason) (answers net log (issued (perform this op) net log)) ->
        fst (perform this op net log) = Rejected (NetworkFailure reason))
     /\ ((forall limit cursor,
            op = GetChannels limit cursor -> missing (channelIds this)) ->
         exists req,
           snd (perform this op net log) = log ++ [req]
           /\ forall st v,
                net log req = Answered {| status := st; decoded := Some v |} ->
                fst (perform this op net log) = Fulfilled v))
  /\ (forall t args,
        In t (tools_of this) ->
        (forall reason,
           In (Unreachable reason)
              (answers net log (issued (tool_handler t args) net log)) ->
           fst (tool_handler t args net log) = Rejected (NetworkFailure reason))
        /\ ((tool_name t = js "slack_list_channels" -> missing (channelIds this)) ->
            exists req,
              snd (tool_handler t args net log) = log ++ [req]
              /\ forall st v,
                   net log req = Answered {| status := st; decoded := Some v |} ->
                   fst (tool_handler t args net log)
                   = Fulfilled
                       (JObj [ (js "content",
                                JArr [ JObj [ (js "type", JStr (js "text"));
                                              (js "text",
                                               JStr (JSON_stringify v)) ] ]) ]))).
Proof.
  split.
  - intros op. split.
    + apply ptf_issued, ptf_perform.
    + intros Hopen. destruct (@perform_one_request this op net log Hopen) as (req & Hrun).
      exists req. rewrite Hrun. split; [reflexivity |].
      intros st v Hnet. cbn [fst]. now rewrite (reply_of_answered Hnet).
  - intros t args Hin.
    destruct (@tool_handler_forwards this t args Hin) as (op & Hfwd & Hname).
    split.
    + apply ptf_issued.
      apply (ptf_ext (c := response <- perform this op ;; resolve (text_content response)));
        [exact Hfwd |].
      apply ptf_await; [apply ptf_perform | intros a; apply ptf_resolve].
    + intros Hopen.
      assert (Hop : forall limit cursor,
                 op = GetChannels limit cursor -> missing (channelIds this)).
      { intros limit cursor Heq. apply Hopen. exact (Hname _ _ Heq). }
      destruct (@perform_one_request this op net log Hop) as (req & Hrun).
      exists req. rewrite Hfwd. unfold await, resolve. rewrite Hrun.
      destruct (reply_of (net log req)) as [r | e] eqn:Hreply.
      * split; [reflexivity |].
        intros st v Hnet. rewrite (reply_of_answered Hnet) in Hreply.
        injection Hreply as <-. reflexivity.
      * split; [reflexivity |].
        intros st v Hnet. rewrite (reply_of_answered Hnet) in Hreply.
        discriminate Hreply.
Qed.

(* ================================================================== *)
(** ** The requests of an operation *)
(* ================================================================== *)

Lemma Forall_firstn_of {A} (P : A -> Prop) (k : nat) (l : list A) :
  Forall P l -> Forall P (firstn k l).
Proof.
  intros H. rewrite <- (firstn_skipn k l) in H.
  now apply Forall_app in H.
Qed.

Lemma requests_of_nonempty (this : SlackClient) (op : Operation) :
  requests_of this op <> [].
Proof.
  destruct op; cbn [requests_of]; try discriminate.
  destruct (channelIds this) as [[| u s] |]; try discriminate.
  intros H. apply map_eq_nil, map_eq_nil in H. exact (split_nonempty _ _ H).
Qed.

(** An operation that is not the pinned listing: one planned request, and
    the run is the reply to it. *)
Lemma perform_single
  (this : SlackClient) (op : Operation) :
  (forall limit cursor, op = GetChannels limit cursor -> missing (channelIds this)) ->
  exists req,
    requests_of this op = [req]
    /\ forall net log,
         perform this op net log = (reply_of (net log req), log ++ [req]).
Proof.
  intros Hopen.
  destruct op; cbn [perform requests_of];
    unfold getChannels, postMessage, postReply, addReaction, getChannelHistory,
      getThreadReplies, getUsers, getUserProfile.
  1: destruct (Hopen _ _ eq_refl) as [-> | ->].
  all: eexists; split; [reflexivity |]; intros net log;
    rewrite fetch_json_run; reflexivity.
Qed.

Lemma perform_sent
  (this : SlackClient) (op : Operation) (net : Network) (log : list Request) :
  exists k,
    k <> 0%nat
    /\ snd (perform this op net log) = log ++ firstn k (requests_of this op)
    /\ (forall v, fst (perform this op net log) = Fulfilled v ->
        firstn k (requests_of this op) = requests_of this op).
Proof.
  destruct (channelIds this) as [[| u s] |] eqn:Hids.
  2:{ destruct op as [limit cursor | | | | | | |].
      - cbn [perform requests_of]. rewrite Hids.
        destruct (lookup_channels_sent this (map trim (split comma (u :: s))) [] net log)
          as (k & Hlog & Hk & Hfull).
        exists k. rewrite (@getChannels_pinned_run this u s limit cursor net log Hids).
        rewrite firstn_map.
        destruct (lookup_channels this _ [] net log) as [[channels | e] log'];
          cbn [fst snd] in *.
        + repeat split.
          * apply Hk. intros H. apply map_eq_nil in H. exact (split_nonempty _ _ H).
          * exact Hlog.
          * intros _ _. now rewrite (Hfull channels eq_refl).
        + repeat split.
          * apply Hk. intros H. apply map_eq_nil in H. exact (split_nonempty _ _ H).
          * exact Hlog.
          * discriminate.
      - destruct (@perform_single this (PostMessage channel_id text)) as (req & Hreq & Hrun);
          [discriminate |].
        exists 1%nat. rewrite Hrun, Hreq. repeat split. discriminate.
      - destruct (@perform_single this (PostReply channel_id thread_ts text))
          as (req & Hreq & Hrun); [discriminate |].
        exists 1%nat. rewrite Hrun, Hreq. repeat split. discriminate.
      - destruct (@perform_single this (AddReaction channel_id timestamp reaction))
          as (req & Hreq & Hrun); [discriminate |].
        exists 1%nat. rewrite Hrun, Hreq. repeat split. discriminate.
      - destruct (@perform_single this (GetChannelHistory channel_id limit))
          as (req & Hreq & Hrun); [discriminate |].
        exists 1%nat. rewrite Hrun, Hreq. repeat split. discriminate.
      - destruct (@perform_single this (GetThreadReplies channel_id thread_ts))
          as (req & Hreq & Hrun); [discriminate |].
        exists 1%nat. rewrite Hrun, Hreq. repeat split. discriminate.
      - destruct (@perform_single this (GetUsers limit cursor))
          as (req & Hreq & Hrun); [discriminate |].
        exists 1%nat. rewrite Hrun, Hreq. repeat split. discriminate.
      - destruct (@perform_single this (GetUserProfile user_id))
          as (req & Hreq & Hrun); [discriminate |].
        exists 1%nat. rewrite Hrun, Hreq. repeat split. discriminate. }
  all: destruct (@perform_single this op) as (req & Hreq & Hrun);
    [ intros; unfold missing; rewrite Hids; auto
    | exists 1%nat; rewrite Hrun, Hreq; repeat split; discriminate ].
Qed.

Lemma issued_perform_prefix
  (this : SlackClient) (op : Operation) (net : Network) (log : list Request) :
  exists k,
    k <> 0%nat
    /\ issued (perform this op) net log = firstn k (requests_of this op).
Proof.
  destruct (perform_sent this op net log) as (k & Hk & Hlog & _).
  exists k. split; [exact Hk | now apply issued_app].
Qed.

Lemma Forall_issued_perform
  (P : Request -> Prop) (this : SlackClient) (op : Operation)
  (net : Network) (log : list Request) :
  Forall P (requests_of this op) ->
  Forall P (issued (perform this op) net log).
Proof.
  intros H. destruct (issued_perform_prefix this op net log) as (k & _ & ->).
  now apply Forall_firstn_of.
Qed.

(** X1.  Every request any client operation sends, the lookups of the
    pinned listing included, goes to a path under
    [https://slack.com/api/] and carries the headers built by the
    constructor: [Authorization: Bearer <token>] and
    [Content-Type: application/json]. *)
Theorem every_request_is_an_authorized_slack_call
  (botToken team : jsstring) (ids : option jsstring) (op : Operation)
  (net : Network) (log : list Request) :
  Forall (fun req =>
            Authorization (headers req) = js "Bearer " ++ botToken
            /\ Content_Type (headers req) = js "application/json"
            /\ exists path, url req = js "https://slack.com/api/" ++ path)
         (issued (perform (new_SlackClient botToken team ids) op) net log).
Proof.
  apply Forall_issued_perform.
  destruct op; cbn [requests_of].
  1: cbn [new_SlackClient channelIds]; destruct ids as [[| u s] |].
  2:{ apply Forall_forall. intros req Hin.
      apply in_map_iff in Hin as (id & <- & _).
      repeat split. now exists (js "conversations.info"). }
  all: constructor; [| constructor]; repeat split; eexists; reflexivity.
Qed.

(** X2.  The three operations that change the workspace send only POST
    requests, with a body and no query; the five that read send only GET
    requests, with a query and no body. *)
Theorem reads_are_get_and_writes_are_post
  (this : SlackClient) (op : Operation) (net : Network) (log : list Request) :
  Forall (fun req =>
            if mutating op
            then method req = POST /\ search req = None /\ body req <> None
            else method req = GET /\ search req <> None /\ body req = None)
         (issued (perform this op) net log).
Proof.
  apply Forall_issued_perform.
  destruct op; cbn [requests_of mutating].
  1: destruct (channelIds this) as [[| u s] |].
  2:{ apply Forall_forall. intros req Hin.
      apply in_map_iff in Hin as (id & <- & _).
      repeat split. discriminate. }
  all: constructor; [| constructor]; repeat split; discriminate.
Qed.

(** X3.  What an operation sends does not depend on what the provider
    answers, only how far it gets: the requests sent are a non-empty
    prefix of the planned ones, never more than planned, all of them when
    the operation fulfils, and exactly one for every operation but the
    pinned listing, whatever the outcome. *)
Theorem requests_are_a_prefix_of_the_planned_ones
  (this : SlackClient) (op : Operation) (net : Network) (log : list Request) :
  (exists k,
     k <> 0%nat
     /\ issued (perform this op) net log = firstn k (requests_of this op))
  /\ (1 <= List.length (issued (perform this op) net log)
      <= List.length (requests_of this op))%nat
  /\ (forall v,
        fst (perform this op net log) = Fulfilled v ->
        issued (perform this op) net log = requests_of this op)
  /\ ((forall limit cursor,
         op = GetChannels limit cursor -> missing (channelIds this)) ->
      List.length (issued (perform this op) net log) = 1%nat).
Proof.
  destruct (perform_sent this op net log) as (k & Hk & Hlog & Hfull).
  pose proof (@issued_app _ _ _ _ _ Hlog) as Hsent.
  split; [exists k; split; assumption |].
  split; [| split].
  - rewrite Hsent. split; [| rewrite length_firstn; lia].
    pose proof (@requests_of_nonempty this op) as Hne.
    destruct k as [| k]; [contradiction |].
    destruct (requests_of this op); [contradiction | cbn; lia].
  - intros v Hv. rewrite Hsent. exact (Hfull v Hv).
  - intros Hopen. destruct (@perform_single this op Hopen) as (req & _ & Hrun).
    erewrite issued_app by (rewrite Hrun; reflexivity). reflexivity.
Qed.

(* ================================================================== *)
(** ** The remaining one-request methods *)
(* ================================================================== *)

(** X4.  [getUsers] sends one GET to [users.list] with the rendering of
    [Math.min] of the limit (100 when absent) and 200, then the team id,
    then the cursor when it is given and non-empty, each string as
    [URLSearchParams] stores it (a lone surrogate becomes U+FFFD); the
    number sent is 200 for a limit above 200 and the limit itself for a
    limit below 200 (zero and negative limits are not raised); the result
    is the decoded body of the answer, and the call rejects when the
    transport fails or the body is not JSON. *)
Theorem getUsers_one_listing_request
  (this : SlackClient) (limit : option number) (cursor : option jsstring)
  (net : Network) (log : list Request) :
  let given := match limit with Some n => n | None => num 100 end in
  let sent := Math_min given (num 200) in
  let req :=
    {| url := js "https://slack.com/api/users.list";
       search := Some ([ (js "limit", Number_toString sent);
                         (js "team_id", USVString (teamId this)) ]
                       ++ match cursor with
                          | Some (u :: c) => [ (js "cursor", USVString (u :: c)) ]
                          | _ => []
                          end);
       method := GET;
       headers := botHeaders this;
       body := None |} in
  snd (getUsers this limit cursor net log) = log ++ [req]
  /\ (SFltb (num 200) given = true -> sent = num 200)
  /\ (SFltb given (num 200) = true -> sent = given)
  /\ (forall st v,
        net log req = Answered {| status := st; decoded := Some v |} ->
        fst (getUsers this limit cursor net log) = Fulfilled v)
  /\ (forall st,
        net log req = Answered {| status := st; decoded := None |} ->
        fst (getUsers this limit cursor net log) = Rejected InvalidJSON)
  /\ (forall reason,
        net log req = Unreachable reason ->
        fst (getUsers this limit cursor net log) = Rejected (NetworkFailure reason)).
Proof.
  intros given sent req.
  assert (Hrun : getUsers this limit cursor net log
                 = (reply_of (net log req), log ++ [req])).
  { unfold getUsers. rewrite fetch_json_run.
    unfold get_request, new_URLSearchParams, append_cursor, URLSearchParams_append, req.
    cbn [map fst snd]. rewrite USVString_Number_toString.
    destruct limit, cursor as [[| u c] |]; reflexivity. }
  rewrite Hrun. cbn [fst snd].
  split; [reflexivity |].
  split; [apply Math_min_above |].
  split; [apply Math_min_below |].
  repeat split; intros; match goal with H : net log req = _ |- _ => rewrite H end;
    reflexivity.
Qed.

(** X5.  [getThreadReplies] sends one GET to [conversations.replies] with
    exactly the parameters [channel] and [ts], in that order, each value as
    [URLSearchParams] stores it (unchanged unless it holds a lone
    surrogate, which becomes U+FFFD); the result is the decoded body of the
    answer, and the call rejects when the transport fails or the body is
    not JSON. *)
Theorem getThreadReplies_one_request
  (this : SlackClient) (channel_id thread_ts : jsstring)
  (net : Network) (log : list Request) :
  let req :=
    {| url := js "https://slack.com/api/conversations.replies";
       search := Some [ (js "channel", USVString channel_id);
                        (js "ts", USVString thread_ts) ];
       method := GET;
       headers := botHeaders this;
       body := None |} in
  snd (getThreadReplies this channel_id thread_ts net log) = log ++ [req]
  /\ (forall st v,
        net log req = Answered {| status := st; decoded := Some v |} ->
        fst (getThreadReplies this channel_id thread_ts net log) = Fulfilled v)
  /\ (forall st,
        net log req = Answered {| status := st; decoded := None |} ->
        fst (getThreadReplies this channel_id thread_ts net log)
        = Rejected InvalidJSON)
  /\ (forall reason,
        net log req = Unreachable reason ->
        fst (getThreadReplies this channel_id thread_ts net log)
        = Rejected (NetworkFailure reason)).
Proof.
  intros req.
  assert (Hrun : getThreadReplies this channel_id thread_ts net log = (reply_of (net log req), log ++ [req])).
  { unfold getThreadReplies. rewrite fetch_json_run. reflexivity. }
  rewrite Hrun. cbn [fst snd].
  split; [reflexivity |].
  repeat split; intros; match goal with H : net log req = _ |- _ => rewrite H end;
    reflexivity.
Qed.

(** X6.  [getUserProfile] sends one GET to [users.profile.get] with the
    user id as [URLSearchParams] stores it (unchanged unless it holds a
    lone surrogate, which becomes U+FFFD) and, for every user id,
    [include_labels=true]; the result is the decoded body of the answer,
    and the call rejects when the transport fails or the body is not
    JSON. *)
Theorem getUserProfile_one_request
  (this : SlackClient) (user_id : jsstring) (net : Network) (log : list Request) :
  let req :=
    {| url := js "https://slack.com/api/users.profile.get";
       search := Some [ (js "user", USVString user_id);
                        (js "include_labels", js "true") ];
       method := GET;
       headers := botHeaders this;
       body := None |} in
  snd (getUserProfile this user_id net log) = log ++ [req]
  /\ (forall st v,
        net log req = Answered {| status := st; decoded := Some v |} ->
        fst (getUserProfile this user_id net log) = Fulfilled v)
  /\ (forall st,
        net log req = Answered {| status := st; decoded := None |} ->
        fst (getUserProfile this user_id net log) = Rejected InvalidJSON)
  /\ (forall reason,
        net log req = Unreachable reason ->
        fst (getUserProfile this user_id net log)
        = Rejected (NetworkFailure reason)).
Proof.
  intros req.
  assert (Hrun : getUserProfile this user_id net log = (reply_of (net log req), log ++ [req])).
  { unfold getUserProfile. rewrite fetch_json_run. reflexivity. }
  rewrite Hrun. cbn [fst snd].
  split; [reflexivity |].
  repeat split; intros; match goal with H : net log req = _ |- _ => rewrite H end;
    reflexivity.
Qed.

(* ================================================================== *)
(** ** The HTTP status *)
(* ================================================================== *)

Lemma lookup_channels_ext
  (this : SlackClient) (net net' : Network) :
  (forall log req, reply_of (net log req) = reply_of (net' log req)) ->
  forall ids channels log,
    lookup_channels this ids channels net log
    = lookup_channels this ids channels net' log.
Proof.
  intros Hsame. induction ids as [| id rest IH]; intros channels log;
    [reflexivity |].
  rewrite !lookup_channels_step, Hsame.
  destruct (reply_of (net' log (info_request this id))) as [data | e];
    [| reflexivity].
  destruct (accepted_channel data) as [[ch |] | e];
    [apply IH | apply IH | reflexivity].
Qed.

Lemma perform_ext
  (this : SlackClient) (op : Operation) (net net' : Network) (log : list Request) :
  (forall log req, reply_of (net log req) = reply_of (net' log req)) ->
  perform this op net log = perform this op net' log.
Proof.
  intros Hsame.
  destruct (channelIds this) as [[| u s] |] eqn:Hids.
  2:{ destruct op as [limit cursor | | | | | | |].
      1:{ cbn [perform].
          rewrite !(@getChannels_pinned_run this u s limit cursor _ log Hids).
          now rewrite (@lookup_channels_ext this net net' Hsame). }
      all: match goal with
           | |- perform _ ?o _ _ = _ =>
               destruct (@perform_single this o) as (req & _ & Hrun);
               [discriminate | now rewrite !Hrun, Hsame]
           end. }
  all: destruct (@perform_single this op) as (req & _ & Hrun);
    [ intros; unfold missing; rewrite Hids; auto
    | now rewrite !Hrun, Hsame ].
Qed.

Lemma reply_of_set_status (st : Z) (net : Network) (log : list Request) (req : Request) :
  reply_of (set_status st net log req) = reply_of (net log req).
Proof.
  unfold set_status. destruct (net log req) as [reason | r]; reflexivity.
Qed.

(** X7.  The status of an answer is never read: giving every answer
    another status (a non-2xx one, say) changes neither the result nor the
    requests of any client operation or tool handler. *)
Theorem http_status_is_ignored
  (this : SlackClient) (st : Z) (net : Network) (log : list Request) :
  (forall op,
     perform this op (set_status st net) log = perform this op net log)
  /\ (forall t args,
        In t (tools_of this) ->
        tool_handler t args (set_status st net) log = tool_handler t args net log).
Proof.
  assert (Hop : forall op,
             perform this op (set_status st net) log = perform this op net log).
  { intros op. apply perform_ext. intros. apply reply_of_set_status. }
  split; [exact Hop |].
  intros t args Hin.
  destruct (@tool_handler_forwards this t args Hin) as (op & Hfwd & _).
  rewrite !Hfwd. unfold await. now rewrite Hop.
Qed.

(* ================================================================== *)
(** ** The pinned listing: failures and what it lists *)
(* ================================================================== *)

(** The test of line 74 throws on the body [null] and on no other. *)
Lemma accepted_channel_not_null (data : JSON) :
  data <> JNull -> exists pushed, accepted_channel data = Fulfilled pushed.
Proof.
  intros Hnn. unfold accepted_channel.
  destruct data as [| b | n | s | items | fields]; try contradiction;
    cbn [Get truthy]; try (eexists; reflexivity).
  destruct (truthy (assoc (js "ok") fields)); [| eexists; reflexivity].
  destruct (assoc (js "channel") fields) as [ch |]; [| eexists; reflexivity].
  destruct ch as [| b | n | s | items | channel]; cbn [truthy Get];
    repeat match goal with
           | |- context [if ?c then _ else _] => destruct c
           end; eexists; reflexivity.
Qed.

(** What an accepted channel is: the truthy [channel] property of an
    object body whose [ok] is truthy, with no truthy [is_archived]. *)
Lemma accepted_channel_some (data ch : JSON) :
  accepted_channel data = Fulfilled (Some ch) ->
  exists fields,
    data = JObj fields
    /\ truthy (assoc (js "ok") fields) = true
    /\ assoc (js "channel") fields = Some ch
    /\ truthy (Some ch) = true
    /\ forall props, ch = JObj props ->
                     truthy (assoc (js "is_archived") props) = false.
Proof.
  unfold accepted_channel.
  destruct data as [| b | n | s | items | fields]; cbn [Get truthy];
    try discriminate.
  destruct (truthy (assoc (js "ok") fields)) eqn:Hok; [| discriminate].
  destruct (assoc (js "channel") fields) as [c |] eqn:Hch; [| discriminate].
  destruct (truthy (Some c)) eqn:Htr; [| discriminate].
  intros H. exists fields.
  destruct c as [| b | n | s | items | props]; cbn [Get] in H;
    try discriminate Htr.
  all: try (cbn [truthy negb] in H; injection H as <-;
            repeat split; auto; intros ? [=]).
  destruct (truthy (assoc (js "is_archived") props)) eqn:Harch;
    cbn [negb] in H; [discriminate |].
  injection H as <-. repeat split; auto.
  intros props' [= <-]. exact Harch.
Qed.

Lemma lookup_failure_none (a : FetchResult) :
  lookup_failure a = None ->
  exists data, answered_with a data /\ data <> JNull.
Proof.
  unfold lookup_failure, answered_with.
  destruct a as [reason | [st [data |]]]; cbn [decoded]; try discriminate.
  destruct data; try discriminate; intros _; eexists; split;
    try (eexists; reflexivity); discriminate.
Qed.

Lemma lookup_failure_some
  (this : SlackClient) (id : jsstring) (rest : list jsstring)
  (channels : list JSON) (net : Network) (log : list Request) (e : Exception) :
  lookup_failure (net log (info_request this id)) = Some e ->
  lookup_channels this (id :: rest) channels net log
  = (Rejected e, log ++ [info_request this id]).
Proof.
  rewrite lookup_channels_step. unfold lookup_failure, reply_of.
  destruct (net log (info_request this id)) as [reason | [st [data |]]];
    cbn [decoded].
  - now intros [= <-].
  - destruct data; try discriminate. now intros [= <-].
  - now intros [= <-].
Qed.

Lemma lookup_channels_first_failure
  (this : SlackClient) (net : Network) (id : jsstring) (rest : list jsstring)
  (e : Exception) (done : list jsstring) :
  forall channels log,
    Forall (fun a => lookup_failure a = None)
           (answers net log (map (info_request this) done)) ->
    lookup_failure (net (log ++ map (info_request this) done) (info_request this id))
    = Some e ->
    lookup_channels this (done ++ id :: rest) channels net log
    = (Rejected e, log ++ map (info_request this) (done ++ [id])).
Proof.
  induction done as [| d done IH]; intros channels log Hok Hfail.
  - cbn [app map] in *. rewrite app_nil_r in Hfail.
    now apply lookup_failure_some.
  - cbn [app map answers] in *. inversion Hok as [| a l Ha Hrest]; subst.
    rewrite lookup_channels_step.
    destruct (@lookup_failure_none _ Ha) as (data & [st Hans] & Hnn).
    rewrite Hans. cbn [reply_of decoded].
    destruct (@accepted_channel_not_null _ Hnn) as (pushed & ->).
    change (log ++ info_request this d :: map (info_request this) done)
      with (log ++ [info_request this d] ++ map (info_request this) done) in Hfail.
    rewrite app_assoc in Hfail.
    destruct pushed as [ch |];
      rewrite (IH _ _ Hrest Hfail), <- app_assoc; reflexivity.
Qed.

(** X8.  The pinned listing stops at the first lookup that fails (the
    transport fails, the body is not JSON, or the body is [null]): the
    call rejects with that failure, the ids after it are not looked up,
    and the channels found before it are dropped. *)
Theorem pinned_listing_stops_at_first_failure
  (this : SlackClient) (ids_string : jsstring)
  (done : list jsstring) (id : jsstring) (rest : list jsstring) (e : Exception)
  (limit : option number) (cursor : option jsstring)
  (net : Network) (log : list Request) :
  channelIds this = Some ids_string ->
  ids_string <> [] ->
  map trim (split comma ids_string) = done ++ id :: rest ->
  Forall (fun a => lookup_failure a = None)
         (answers net log (map (info_request this) done)) ->
  lookup_failure (net (log ++ map (info_request this) done) (info_request this id))
  = Some e ->
  getChannels this limit cursor net log
  = (Rejected e, log ++ map (info_request this) (done ++ [id])).
Proof.
  intros Hpinned Hne Hids Hok Hfail.
  destruct ids_string as [| u s]; [contradiction |].
  rewrite (@getChannels_pinned_run this u s limit cursor net log Hpinned), Hids.
  now rewrite (@lookup_channels_first_failure this net id rest e done [] log Hok Hfail).
Qed.

Lemma pinned_listing_stops_at_first_failure_witness :
  getChannels (demo_client (Some (js "C1,C2,C3"))) None None
    (down_after 1 scenario_network) []
  = (Rejected (NetworkFailure (js "ECONNRESET")),
     [ info_request (demo_client (Some (js "C1,C2,C3"))) (js "C1");
       info_request (demo_client (Some (js "C1,C2,C3"))) (js "C2") ]).
Proof.
  refine (@pinned_listing_stops_at_first_failure
            (demo_client (Some (js "C1,C2,C3"))) (js "C1,C2,C3")
            [ js "C1" ] (js "C2") [ js "C3" ] (NetworkFailure (js "ECONNRESET"))
            None None (down_after 1 scenario_network) [] eq_refl _ eq_refl _ eq_refl).
  - discriminate.
  - repeat constructor.
Defined.

Lemma answered_bodies (l : list FetchResult) :
  Forall (fun a => lookup_failure a = None) l ->
  exists bodies,
    Forall2 answered_with l bodies /\ Forall (fun b => b <> JNull) bodies.
Proof.
  induction 1 as [| a l Ha _ (bodies & H2 & Hnn)].
  - exists []. split; constructor.
  - destruct (@lookup_failure_none _ Ha) as (data & Hans & Hd).
    exists (data :: bodies). split; constructor; assumption.
Qed.

Lemma keep_some_length {A} (l : list (option A)) :
  (List.length (keep_some l) <= List.length l)%nat.
Proof.
  unfold keep_some. induction l as [| [x |] l IH]; cbn in *; lia.
Qed.

Lemma keep_some_in {A B} (f : A -> option B) (l : list A) (y : B) :
  In y (keep_some (map f l)) -> exists x, In x l /\ f x = Some y.
Proof.
  unfold keep_some. induction l as [| x l IH]; cbn; [contradiction |].
  destruct (f x) as [z |] eqn:Hfx; cbn.
  - intros [<- | Hin]; [exists x; auto |].
    destruct (IH Hin) as (x' & Hx' & Hf). exists x'. auto.
  - intros Hin. destruct (IH Hin) as (x' & Hx' & Hf). exists x'. auto.
Qed.

Lemma Forall2_in_right {A B} (R : A -> B -> Prop) (l : list A) (l' : list B) (b : B) :
  Forall2 R l l' -> In b l' -> exists a, In a l /\ R a b.
Proof.
  induction 1 as [| x y l l' Hxy _ IH]; cbn; [contradiction |].
  intros [<- | Hin]; [exists x; auto |].
  destruct (IH Hin) as (a & Ha & HR). exists a. auto.
Qed.

(** X9.  When no lookup fails, the pinned listing fulfils with
    [{ok: true, channels, response_metadata: {next_cursor: ""}}] after
    sending every lookup, whatever the bodies hold; it lists at most one
    channel per id, and each listed channel is the truthy [channel]
    property of the body of one of the answers, a body whose [ok] is truthy
    and whose channel has no truthy [is_archived]: no channel is made up
    and none is [null]. *)
Theorem pinned_listing_lists_only_provider_channels
  (this : SlackClient) (ids_string : jsstring)
  (limit : option number) (cursor : option jsstring)
  (net : Network) (log : list Request) :
  channelIds this = Some ids_string ->
  ids_string <> [] ->
  let lookups := map (info_request this) (map trim (split comma ids_string)) in
  Forall (fun a => lookup_failure a = None) (answers net log lookups) ->
  exists channels,
    getChannels this limit cursor net log
    = (Fulfilled (JObj [ (js "ok", JBool true);
                         (js "channels", JArr channels);
                         (js "response_metadata",
                          JObj [ (js "next_cursor", JStr (js "")) ]) ]),
       log ++ lookups)
    /\ (List.length channels <= List.length lookups)%nat
    /\ Forall (fun ch =>
                 exists a fields,
                   In a (answers net log lookups)
                   /\ answered_with a (JObj fields)
                   /\ truthy (assoc (js "ok") fields) = true
                   /\ assoc (js "channel") fields = Some ch
                   /\ truthy (Some ch) = true
                   /\ forall props, ch = JObj props ->
                        truthy (assoc (js "is_archived") props) = false)
              channels.
Proof.
  intros Hpinned Hne lookups Hok.
  destruct ids_string as [| u s]; [contradiction |].
  destruct (@answered_bodies _ Hok) as (bodies & Hans & Hnn).
  pose (select := fun b => match accepted_channel b with
                           | Fulfilled pushed => pushed
                           | Rejected _ => None
                           end).
  assert (Hsel : Forall (fun b => accepted_channel b = Fulfilled (select b)) bodies).
  { eapply Forall_impl; [| exact Hnn]. intros b Hb. unfold select.
    now destruct (@accepted_channel_not_null _ Hb) as (pushed & ->). }
  exists (keep_some (map select bodies)).
  split; [| split].
  - rewrite (@getChannels_pinned_run this u s limit cursor net log Hpinned).
    now rewrite (@lookup_channels_answered this select net _ bodies [] log Hans Hsel).
  - etransitivity; [apply keep_some_length |].
    rewrite length_map. apply Forall2_length in Hans.
    rewrite <- Hans. clear. generalize log.
    induction lookups as [| r l IH]; intros lg; cbn; [lia |].
    specialize (IH (lg ++ [r])). lia.
  - apply Forall_forall. intros ch Hin.
    apply keep_some_in in Hin as (b & Hb & Hsb).
    destruct (@Forall2_in_right _ _ _ _ _ _ Hans Hb) as (a & Ha & Hab).
    rewrite Forall_forall in Hsel. specialize (Hsel b Hb). rewrite Hsb in Hsel.
    destruct (@accepted_channel_some _ _ Hsel) as (fields & -> & H1 & H2 & H3 & H4).
    exists a, fields. repeat split; assumption.
Qed.

Lemma pinned_listing_lists_only_provider_channels_witness :
  exists channels,
    getChannels (demo_client (Some (js "C1,C2"))) None None scenario_network []
    = (Fulfilled (JObj [ (js "ok", JBool true);
                         (js "channels", JArr channels);
                         (js "response_metadata",
                          JObj [ (js "next_cursor", JStr (js "")) ]) ]),
       [ info_request (demo_client (Some (js "C1,C2"))) (js "C1");
         info_request (demo_client (Some (js "C1,C2"))) (js "C2") ])
    /\ (List.length channels <= 2)%nat.
Proof.
  destruct (@pinned_listing_lists_only_provider_channels
              (demo_client (Some (js "C1,C2"))) (js "C1,C2") None None
              scenario_network [] eq_refl)
    as (channels & Hrun & Hlen & _).
  - discriminate.
  - repeat constructor.
  - exists channels. split; [exact Hrun | exact Hlen].
Defined.

(* ================================================================== *)
(** ** The ids of the pinned listing *)
(* ================================================================== *)

Lemma join_split (s : jsstring) : join [comma] (split comma s) = s.
Proof.
  induction s as [| c r IH]; [reflexivity |].
  cbn [split]. unfold unit_eqb. destruct (N.eqb_spec c comma) as [-> | Hne].
  - pose proof (@split_nonempty comma r) as Hr.
    destruct (split comma r) as [| w ws] eqn:Hs; [contradiction |].
    change (join [comma] ([] :: w :: ws)) with (comma :: join [comma] (w :: ws)).
    now rewrite IH.
  - destruct (split comma r) as [| w ws] eqn:Hs.
    + exfalso. exact (@split_nonempty comma r Hs).
    + destruct ws as [| w2 ws'].
      * cbn [join] in *. now rewrite IH.
      * change (join [comma] ((c :: w) :: w2 :: ws'))
          with (c :: join [comma] (w :: w2 :: ws')).
        now rewrite IH.
Qed.

Lemma split_elements_comma_free (s : jsstring) :
  Forall comma_free (split comma s).
Proof.
  induction s as [| c r IH]; [repeat constructor |].
  cbn [split]. destruct (unit_eqb c comma) eqn:Hc.
  - constructor; [constructor | exact IH].
  - destruct (split comma r) as [| w ws]; [repeat constructor; exact Hc |].
    inversion IH; subst. constructor; [constructor; assumption | assumption].
Qed.

Lemma split_length (s : jsstring) :
  List.length (split comma s) = S (count_occ N.eq_dec s comma).
Proof.
  induction s as [| c r IH]; [reflexivity |].
  cbn [split count_occ]. unfold unit_eqb.
  destruct (N.eqb_spec c comma) as [-> | Hne].
  - destruct (N.eq_dec comma comma) as [_ | Habs]; [| contradiction].
    cbn. now rewrite IH.
  - destruct (N.eq_dec c comma) as [Habs | _]; [contradiction |].
    destruct (split comma r) as [| w ws]; [discriminate IH | exact IH].
Qed.

(** X10.  Splitting the configured string loses nothing and skips
    nothing: the elements are comma-free, joined with commas they give the
    string back, and there is one more of them than there are commas; the
    pinned listing sends at least one lookup and at most one per element,
    and exactly one per element (empty elements included) when it
    fulfils. *)
Theorem one_lookup_per_comma_separated_element
  (this : SlackClient) (ids_string : jsstring)
  (limit : option number) (cursor : option jsstring)
  (net : Network) (log : list Request) :
  channelIds this = Some ids_string ->
  ids_string <> [] ->
  let elements := split comma ids_string in
  let sent := issued (getChannels this limit cursor) net log in
  join [comma] elements = ids_string
  /\ Forall comma_free elements
  /\ List.length elements = S (count_occ N.eq_dec ids_string comma)
  /\ (1 <= List.length sent <= List.length elements)%nat
  /\ (forall v,
        fst (getChannels this limit cursor net log) = Fulfilled v ->
        List.length sent = List.length elements).
Proof.
  intros Hpinned Hne elements sent.
  split; [apply join_split |].
  split; [apply split_elements_comma_free |].
  split; [apply split_length |].
  destruct (perform_sent this (GetChannels limit cursor) net log)
    as (k & Hk & Hlog & Hfull).
  pose proof (@issued_app _ _ _ _ _ Hlog) as Hsent.
  cbn [perform] in Hsent, Hfull. fold sent in Hsent.
  assert (Hreqs : requests_of this (GetChannels limit cursor)
                  = map (info_request this) (map trim elements)).
  { cbn [requests_of]. rewrite Hpinned.
    destruct ids_string; [contradiction | reflexivity]. }
  rewrite Hreqs in Hsent, Hfull.
  assert (Hlen : List.length (map (info_request this) (map trim elements))
                 = List.length elements) by now rewrite !length_map.
  split.
  - rewrite Hsent, length_firstn, Hlen.
    pose proof (@split_nonempty comma ids_string) as Hs. fold elements in Hs.
    destruct elements; [contradiction |]. cbn [List.length]. lia.
  - intros v Hv. now rewrite Hsent, (Hfull v Hv).
Qed.

Lemma one_lookup_per_comma_separated_element_witness :
  List.length (split comma (js "C1,,C2,")) = 4%nat
  /\ List.length (issued (getChannels (demo_client (Some (js "C1,,C2,"))) None None)
                    scenario_network [])
     = 4%nat.
Proof.
  destruct (@one_lookup_per_comma_separated_element
              (demo_client (Some (js "C1,,C2,"))) (js "C1,,C2,") None None
              scenario_network [] eq_refl)
    as (_ & _ & Hcount & _ & Hall).
  - discriminate.
  - split; [exact Hcount |].
    rewrite (Hall _ eq_refl). exact Hcount.
Defined.

Lemma trimStart_suffix (x : jsstring) :
  exists w, all_white_space w /\ x = w ++ trimStart x.
Proof.
  induction x as [| c x (w & Hw & IH)].
  - exists []. split; [constructor | reflexivity].
  - cbn [trimStart]. destruct (is_white_space c) eqn:Hc.
    + exists (c :: w). split; [constructor; assumption |].
      cbn. now rewrite <- IH.
    + exists []. split; [constructor | reflexivity].
Qed.

Lemma trimStart_head (x : jsstring) (c : codeunit) (rest : jsstring) :
  trimStart x = c :: rest -> is_white_space c = false.
Proof.
  induction x as [| d x IH]; cbn [trimStart]; [discriminate |].
  destruct (is_white_space d) eqn:Hd; [exact IH |].
  now intros [= <- _].
Qed.

Lemma trimEnd_prefix (t : jsstring) :
  exists w, all_white_space w /\ t = trimEnd t ++ w.
Proof.
  unfold trimEnd. destruct (trimStart_suffix (rev t)) as (w & Hw & Heq).
  exists (rev w). split; [now apply Forall_rev |].
  rewrite <- rev_app_distr, <- Heq. now rewrite rev_involutive.
Qed.

Lemma trim_no_surrounding_white_space (x : jsstring) :
  no_surrounding_white_space (trim x).
Proof.
  unfold trim. split.
  - intros c rest Heq.
    destruct (trimEnd_prefix (trimStart x)) as (w & _ & Hpre).
    rewrite Heq in Hpre. cbn in Hpre.
    exact (trimStart_head _ Hpre).
  - intros c front Heq. unfold trimEnd in Heq.
    apply (f_equal (@rev codeunit)) in Heq.
    rewrite rev_involutive, rev_app_distr in Heq. cbn in Heq.
    exact (trimStart_head _ Heq).
Qed.

Lemma trim_comma_free (x : jsstring) : comma_free x -> comma_free (trim x).
Proof.
  unfold comma_free, trim. intros H.
  destruct (trimStart_suffix x) as (w & _ & Hx).
  rewrite Hx in H. apply Forall_app in H as [_ H].
  destruct (trimEnd_prefix (trimStart x)) as (w' & _ & Ht).
  rewrite Ht in H. now apply Forall_app in H as [H _].
Qed.

(** [USVString] changes a string unit by unit: each unit stays or
    becomes U+FFFD. *)
Lemma USVString_units (s : jsstring) :
  Forall2 (fun c c' => c' = c \/ c' = 0xFFFD%N) s (USVString s)
  /\ forall c, Forall2 (fun c c' => c' = c \/ c' = 0xFFFD%N)
                 (c :: s) (USVString (c :: s)).
Proof.
  induction s as [| d r [IHr IHc]].
  - split; [constructor |].
    intros c. cbn [USVString].
    destruct (is_high_surrogate c); [constructor; [auto | constructor] |].
    destruct (is_low_surrogate c); (constructor; [auto | constructor]).
  - split; [apply IHc |].
    intros c.
    change (USVString (c :: d :: r))
      with (if is_high_surrogate c
            then if is_low_surrogate d
                 then c :: d :: USVString r
                 else 0xFFFD%N :: USVString (d :: r)
            else if is_low_surrogate c
                 then 0xFFFD%N :: USVString (d :: r)
                 else c :: USVString (d :: r)).
    destruct (is_high_surrogate c).
    + destruct (is_low_surrogate d).
      * constructor; [auto |]. constructor; [auto | exact IHr].
      * constructor; [auto | apply IHc].
    + destruct (is_low_surrogate c); (constructor; [auto | apply IHc]).
Qed.

Lemma USVString_comma_free (s : jsstring) :
  comma_free s -> comma_free (USVString s).
Proof.
  unfold comma_free. intros H.
  pose proof (proj1 (USVString_units s)) as Hu.
  induction Hu as [| c c' l l' Hc _ IH]; [constructor |].
  inversion H; subst. constructor; [| auto].
  destruct Hc as [-> | ->]; [assumption | reflexivity].
Qed.

Lemma USVString_no_surrounding_white_space (s : jsstring) :
  no_surrounding_white_space s -> no_surrounding_white_space (USVString s).
Proof.
  intros [Hhead Hlast].
  pose proof (proj1 (USVString_units s)) as Hu.
  split.
  - intros c' rest Heq. rewrite Heq in Hu.
    inversion Hu as [| c x l l' Hc _]; subst.
    destruct Hc as [-> | ->]; [exact (Hhead _ _ eq_refl) | reflexivity].
  - intros c' front Heq. rewrite Heq in Hu.
    apply Forall2_app_inv_r in Hu as (l1 & l2 & _ & Hl2 & ->).
    inversion Hl2 as [| c x l l' Hc Hnil]; subst. inversion Hnil; subst.
    destruct Hc as [-> | ->]; [exact (Hlast _ _ eq_refl) | reflexivity].
Qed.

(** X11.  In pinned mode the only parameter of every lookup sent is
    [channel], and its value has no comma and no white space at either
    end. *)
Theorem pinned_lookups_carry_clean_ids
  (this : SlackClient) (ids_string : jsstring)
  (limit : option number) (cursor : option jsstring)
  (net : Network) (log : list Request) :
  channelIds this = Some ids_string ->
  ids_string <> [] ->
  Forall (fun req =>
            exists id,
              search req = Some [ (js "channel", id) ]
              /\ comma_free id
              /\ no_surrounding_white_space id)
         (issued (getChannels this limit cursor) net log).
Proof.
  intros Hpinned Hne.
  apply (@Forall_issued_perform _ this (GetChannels limit cursor) net log).
  cbn [requests_of]. rewrite Hpinned.
  destruct ids_string as [| u s]; [contradiction |].
  apply Forall_forall. intros req Hin.
  apply in_map_iff in Hin as (id & <- & Hin).
  apply in_map_iff in Hin as (x & <- & Hx).
  exists (USVString (trim x)). split; [reflexivity |].
  split;
    [| apply USVString_no_surrounding_white_space,
         trim_no_surrounding_white_space].
  apply USVString_comma_free, trim_comma_free.
  pose proof (split_elements_comma_free (u :: s)) as Hall.
  rewrite Forall_forall in Hall. now apply Hall.
Qed.

Lemma pinned_lookups_carry_clean_ids_witness :
  Forall (fun req =>
            exists id,
              search req = Some [ (js "channel", id) ]
              /\ comma_free id
              /\ no_surrounding_white_space id)
         (issued (getChannels (demo_client (Some (js " C1 ,C2 "))) None None)
            scenario_network []).
Proof.
  refine (@pinned_lookups_carry_clean_ids
            (demo_client (Some (js " C1 ,C2 "))) (js " C1 ,C2 ") None None
            scenario_network [] eq_refl _).
  discriminate.
Defined.

(** X12.  A configured string made of white space only is not "no list":
    it is non-empty, so the pinned mode applies, and the call sends
    exactly one lookup, for the empty channel id. *)
Theorem white_space_only_ids_look_up_the_empty_id
  (this : SlackClient) (ids_string : jsstring)
  (limit : option number) (cursor : option jsstring)
  (net : Network) (log : list Request) :
  channelIds this = Some ids_string ->
  ids_string <> [] ->
  all_white_space ids_string ->
  issued (getChannels this limit cursor) net log
  = [ {| url := js "https://slack.com/api/conversations.info";
         search := Some [ (js "channel", js "") ];
         method := GET;
         headers := botHeaders this;
         body := None |} ].
Proof.
  intros Hpinned Hne Hws.
  destruct (issued_perform_prefix this (GetChannels limit cursor) net log)
    as (k & Hk & Hsent).
  cbn [perform] in Hsent. rewrite Hsent.
  cbn [requests_of]. rewrite Hpinned.
  destruct ids_string as [| u s]; [contradiction |].
  rewrite (split_comma_free (all_white_space_comma_free Hws)).
  cbn [map].
  assert (Htrim : trim (u :: s) = []).
  { unfold trim. rewrite <- (app_nil_r (u :: s)).
    now rewrite (trimStart_white_space _ Hws). }
  rewrite Htrim. destruct k; [contradiction |].
  cbn [firstn]. rewrite firstn_nil. reflexivity.
Qed.

Lemma white_space_only_ids_look_up_the_empty_id_witness :
  issued (getChannels (demo_client (Some (js "  "))) None None) scenario_network []
  = [ info_request (demo_client (Some (js "  "))) (js "") ].
Proof.
  refine (@white_space_only_ids_look_up_the_empty_id
            (demo_client (Some (js "  "))) (js "  ") None None
            scenario_network [] eq_refl _ _).
  - discriminate.
  - repeat constructor.
Defined.

(* ================================================================== *)
(** ** From the environment to the requests of a tool *)
(* ================================================================== *)

Lemma requests_of_use_client (this : SlackClient) (op : Operation) :
  Forall (fun req =>
            headers req = botHeaders this
            /\ forall v, query_param (js "team_id") req = Some v ->
                         v = USVString (teamId this))
         (requests_of this op).
Proof.
  destruct op as [limit cursor | | | | | | limit cursor |]; cbn [requests_of].
  1: destruct (channelIds this) as [[| u s] |].
  2:{ apply Forall_forall. intros req Hin.
      apply in_map_iff in Hin as (id & <- & _).
      split; [reflexivity | intros v H; discriminate H]. }
  all: constructor; [| constructor]; split; [reflexivity |].
  all: try (intros v H; discriminate H).
  all: destruct cursor as [[| c cs] |]; intros v H; cbn in H;
    injection H as <-; reflexivity.
Qed.

Lemma tool_handler_sent
  (this : SlackClient) (t : Tool) (args : Args) (net : Network) (log : list Request) :
  In t (tools_of this) ->
  exists op,
    issued (tool_handler t args) net log = issued (perform this op) net log.
Proof.
  intros Hin. destruct (@tool_handler_forwards this t args Hin) as (op & Hfwd & _).
  exists op. unfold issued. rewrite Hfwd. unfold await, resolve.
  destruct (perform this op net log) as [[r | e] l]; reflexivity.
Qed.

(** X13.  When the environment holds a non-empty bot token and team id,
    start-up makes eight tools available, and every request any of them
    sends, for any parameters, carries [Authorization: Bearer <that token>]
    and, when it has a [team_id] parameter, that team id as
    [URLSearchParams] stores it: unchanged when it has no surrogate code
    unit. *)
Theorem started_tools_use_the_configured_credentials
  (env : Env) (botToken team : jsstring) :
  SLACK_BOT_TOKEN env = Some botToken ->
  botToken <> [] ->
  SLACK_TEAM_ID env = Some team ->
  team <> [] ->
  List.length (available_tools (start env)) = 8%nat
  /\ forall t args net log,
       In t (available_tools (start env)) ->
       Forall (fun req =>
                 Authorization (headers req) = js "Bearer " ++ botToken
                 /\ forall v, query_param (js "team_id") req = Some v ->
                              v = USVString team
                              /\ (no_surrogate team -> v = team))
              (issued (tool_handler t args) net log).
Proof.
  intros Htoken Hb Hteam Ht.
  assert (Hstart : available_tools (start env)
                   = tools_of (new_SlackClient botToken team (SLACK_CHANNEL_IDS env))).
  { unfold start, new_SlackMCP. rewrite Htoken, Hteam.
    destruct botToken as [| b bs]; [contradiction |].
    destruct team as [| c cs]; [contradiction |]. reflexivity. }
  rewrite Hstart. split; [reflexivity |].
  intros t args net log Hin.
  destruct (@tool_handler_sent _ t args net log Hin) as (op & ->).
  apply Forall_issued_perform.
  eapply Forall_impl; [| apply requests_of_use_client].
  intros req [Hh Hq]. rewrite Hh. split; [reflexivity |].
  intros v Hv. rewrite (Hq v Hv). split; [reflexivity |].
  apply USVString_no_surrogate.
Qed.

Lemma started_tools_use_the_configured_credentials_witness :
  List.length
    (available_tools
       (start {| SLACK_BOT_TOKEN := Some (js "xoxb-test");
                 SLACK_TEAM_ID := Some (js "T1");
                 SLACK_CHANNEL_IDS := None |}))
  = 8%nat.
Proof.
  refine (proj1 (@started_tools_use_the_configured_credentials
                   {| SLACK_BOT_TOKEN := Some (js "xoxb-test");
                      SLACK_TEAM_ID := Some (js "T1");
                      SLACK_CHANNEL_IDS := None |}
                   (js "xoxb-test") (js "T1") eq_refl _ eq_refl _));
    discriminate.
Defined.

(* ================================================================== *)
(** ** What a handler reads *)
(* ================================================================== *)

(** X15.  A handler reads only the parameters its schema declares: two
    parameter objects that agree on them (whatever else they hold, in
    whatever order) give the same run. *)
Theorem handlers_read_only_declared_parameters
  (this : SlackClient) (t : Tool) (args args' : Args) :
  In t (tools_of this) ->
  (forall name, In name (map fst (tool_schema t)) ->
                assoc name args = assoc name args') ->
  forall net log, tool_handler t args net log = tool_handler t args' net log.
Proof.
  intros Hin Hsame net log.
  unfold tools_of, init, agent_of in Hin. cbn in Hin.
  repeat (destruct Hin as [<- | Hin]); [.. | contradiction];
    cbn [tool_handler tool_schema map fst] in *;
    unfold list_channels_handler, post_message_handler, reply_to_thread_handler,
      add_reaction_handler, get_channel_history_handler,
      get_thread_replies_handler, get_users_handler, get_user_profile_handler,
      optional_number, optional_string, required_string;
    repeat match goal with
           | |- context [assoc ?k args] =>
               rewrite (Hsame k) by (cbn [In]; auto 10)
           end;
    reflexivity.
Qed.

Lemma handlers_read_only_declared_parameters_witness :
  tool_handler (nth 4 (tools_of (demo_client None))
                  (Build_Tool [] [] (fun _ => resolve JNull)))
    [ (js "trace", JBool true); (js "limit", JNum (num 5)); (js "channel_id", JStr (js "C1")) ]
    ok_network []
  = tool_handler (nth 4 (tools_of (demo_client None))
                    (Build_Tool [] [] (fun _ => resolve JNull)))
      [ (js "channel_id", JStr (js "C1")); (js "limit", JNum (num 5)) ]
      ok_network [].
Proof.
  refine (@handlers_read_only_declared_parameters
            (demo_client None)
            (nth 4 (tools_of (demo_client None))
               (Build_Tool [] [] (fun _ => resolve JNull)))
            _ _ _ _ ok_network []).
  - cbn. tauto.
  - intros name Hin. cbn in Hin.
    destruct Hin as [<- | [<- | []]]; reflexivity.
Defined.

(* ================================================================== *)
(** ** The text of a content block *)
(* ================================================================== *)

Lemma printable_app (a b : jsstring) :
  printable a -> printable b -> printable (a ++ b).
Proof. unfold printable. intros. apply Forall_app. now split. Qed.

Lemma printable_join (sep : jsstring) (parts : list jsstring) :
  printable sep -> Forall printable parts -> printable (join sep parts).
Proof.
  intros Hsep. induction 1 as [| x l Hx Hl IH]; [constructor |].
  destruct l as [| y l']; [exact Hx |].
  change (join sep (x :: y :: l')) with (x ++ sep ++ join sep (y :: l')).
  auto using printable_app.
Qed.

Lemma plain_printable (s : jsstring) : plain s -> printable s.
Proof.
  unfold plain, printable. intros H.
  eapply Forall_impl; [| exact H]. cbn. intros c Hc. lia.
Qed.

Lemma hex_digit_printable (d : N) : (32 <= hex_digit d)%N.
Proof. unfold hex_digit. destruct (d <? 10)%N; lia. Qed.

Lemma printable_quote_unit (c : codeunit) : printable (quote_unit c).
Proof.
  unfold quote_unit, printable.
  repeat match goal with
         | |- context [(c =? ?k)%N] => destruct (c =? k)%N
         end; try (repeat constructor; now compute).
  destruct (c <? 32)%N eqn:Hc; cbn [orb].
  - unfold UnicodeEscape.
    repeat constructor; try (now compute); apply hex_digit_printable.
  - apply N.ltb_ge in Hc.
    destruct (is_high_surrogate c || is_low_surrogate c).
    + unfold UnicodeEscape.
      repeat constructor; try (now compute); apply hex_digit_printable.
    + repeat constructor. exact Hc.
Qed.

Lemma printable_quote_units (s : jsstring) :
  printable (quote_units s) /\ forall c, printable (quote_units (c :: s)).
Proof.
  induction s as [| d r [IHr IHc]].
  - split; [constructor |].
    intros c. cbn [quote_units].
    destruct (is_high_surrogate c); [apply printable_quote_unit |].
    rewrite app_nil_r. apply printable_quote_unit.
  - split; [apply IHc |].
    intros c. cbn [quote_units].
    destruct (is_high_surrogate c) eqn:Hc.
    + destruct (is_low_surrogate d) eqn:Hd.
      * unfold is_high_surrogate in Hc. unfold is_low_surrogate in Hd.
        apply andb_true_iff in Hc as [Hc _]. apply andb_true_iff in Hd as [Hd _].
        apply N.leb_le in Hc, Hd.
        constructor; [lia |]. constructor; [lia | exact IHr].
      * apply printable_app; [apply printable_quote_unit | apply IHc].
    + apply printable_app; [apply printable_quote_unit | apply IHc].
Qed.

Lemma printable_QuoteJSONString (s : jsstring) : printable (QuoteJSONString s).
Proof.
  unfold QuoteJSONString.
  apply printable_app; [repeat constructor; now compute |].
  apply printable_app; [apply printable_quote_units |].
  repeat constructor; now compute.
Qed.

Lemma printable_literal (s : string) :
  Forall (fun a => (32 <= N_of_ascii a)%N) (list_ascii_of_string s) ->
  printable (js s).
Proof.
  unfold printable, js. intros H. now apply Forall_map.
Qed.

Lemma printable_JSON_stringify : forall v : JSON, printable (JSON_stringify v).
Proof.
  fix IH 1. intros [| [|] | n | s | items | fields]; cbn [JSON_stringify].
  - apply printable_literal. repeat constructor; now compute.
  - apply printable_literal. repeat constructor; now compute.
  - apply printable_literal. repeat constructor; now compute.
  - destruct n; try (apply printable_literal; repeat constructor; now compute);
      apply plain_printable, plain_Number_toString.
  - apply printable_QuoteJSONString.
  - apply printable_app; [apply printable_literal; repeat constructor; now compute |].
    apply printable_app; [| apply printable_literal; repeat constructor; now compute].
    apply printable_join; [apply printable_literal; repeat constructor; now compute |].
    induction items as [| x xs IHxs]; constructor; [apply IH | exact IHxs].
  - apply printable_app; [apply printable_literal; repeat constructor; now compute |].
    apply printable_app; [| apply printable_literal; repeat constructor; now compute].
    apply printable_join; [apply printable_literal; repeat constructor; now compute |].
    induction fields as [| [k x] xs IHxs]; constructor; [| exact IHxs].
    cbn [fst snd].
    apply printable_app; [apply printable_QuoteJSONString |].
    apply printable_app; [apply printable_literal; repeat constructor; now compute |].
    apply IH.
Qed.

Lemma digits_nonempty (z : Z) : digits z <> [].
Proof.
  unfold digits, js.
  destruct (Z.to_int z) as [d | d]; cbn [NilZero.string_of_int];
    [| discriminate].
  destruct d; discriminate.
Qed.

Lemma format_decimal_nonempty (ds : jsstring) (n k : Z) :
  ds <> [] -> format_decimal ds n k <> [].
Proof.
  intros Hds. unfold format_decimal.
  repeat match goal with
         | |- context [if ?c then _ else _] => destruct c
         end;
    intros H; repeat (apply app_eq_nil in H as [? H]); try contradiction;
    try discriminate.
Qed.

Lemma Number_toString_nonempty (x : number) : Number_toString x <> [].
Proof.
  assert (Hpos : forall m e, positive_toString m e <> []).
  { intros m e. unfold positive_toString.
    match goal with
    | |- context [shortest ?f ?v ?lo ?hi ?c ?n0 ?k] =>
        destruct (shortest f v lo hi c n0 k) as [[s n] k']
    end.
    apply format_decimal_nonempty, digits_nonempty. }
  destruct x as [s | [|] | | [|] m e]; cbn [Number_toString];
    try discriminate; apply Hpos.
Qed.

Lemma JSON_stringify_nonempty (v : JSON) : JSON_stringify v <> [].
Proof.
  destruct v as [| [|] | n | s | items | fields]; cbn [JSON_stringify];
    try discriminate.
  destruct n; try discriminate; apply Number_toString_nonempty.
Qed.

(** X16.  The serialization of a response is never empty and holds no
    code unit below 32 (no tab, line feed, carriage return or other C0
    control character), whatever the strings inside the response hold; so
    does the text of the content block of every fulfilled tool call. *)
Theorem tool_text_has_no_control_character (this : SlackClient) :
  (forall response,
     JSON_stringify response <> [] /\ printable (JSON_stringify response))
  /\ (forall t args net log,
        In t (tools_of this) ->
        match fst (tool_handler t args net log) with
        | Fulfilled result =>
            exists text,
              result = JObj [ (js "content",
                               JArr [ JObj [ (js "type", JStr (js "text"));
                                             (js "text", JStr text) ] ]) ]
              /\ text <> [] /\ printable text
        | Rejected _ => True
        end).
Proof.
  split.
  - intros response. split;
      [apply JSON_stringify_nonempty | apply printable_JSON_stringify].
  - intros t args net log Hin.
    destruct (@tool_handler_forwards this t args Hin) as (op & Hfwd & _).
    rewrite Hfwd. unfold await, resolve.
    destruct (perform this op net log) as [[response | e] l]; cbn [fst]; [| exact I].
    exists (JSON_stringify response).
    split; [reflexivity |].
    split; [apply JSON_stringify_nonempty | apply printable_JSON_stringify].
Qed.

(* ================================================================== *)
(** ** Defaults through the handlers *)
(* ================================================================== *)

(** X17.  A tool call that gives no [limit] leaves the default of the
    client method in force: [slack_get_users] and, with no pinned list,
    [slack_list_channels] send [limit=100], and
    [slack_get_channel_history] sends [limit=10]. *)
Theorem omitted_limit_takes_the_method_default
  (this : SlackClient) (t : Tool) (args : Args) (net : Network) (log : list Request) :
  In t (tools_of this) ->
  assoc (js "limit") args = None ->
  (tool_name t = js "slack_get_users" ->
   map (query_param (js "limit")) (issued (tool_handler t args) net log)
   = [ Some (js "100") ])
  /\ (tool_name t = js "slack_list_channels" -> missing (channelIds this) ->
      map (query_param (js "limit")) (issued (tool_handler t args) net log)
      = [ Some (js "100") ])
  /\ (tool_name t = js "slack_get_channel_history" ->
      map (query_param (js "limit")) (issued (tool_handler t args) net log)
      = [ Some (js "10") ]).
Proof.
  intros Hin Hlimit.
  assert (Hsnd : forall (c : Promise JSON),
             issued (response <- c ;; resolve (text_content response)) net log
             = issued c net log).
  { intros c. unfold issued, await, resolve.
    destruct (c net log) as [[r | e] l]; reflexivity. }
  unfold tools_of, init, agent_of in Hin. cbn in Hin.
  repeat (destruct Hin as [<- | Hin]); [.. | contradiction];
    cbn [tool_handler tool_name];
    repeat split; intros Hname; try (vm_compute in Hname; discriminate Hname).
  - intros Hopen.
    unfold list_channels_handler, optional_number. rewrite Hlimit, Hsnd.
    erewrite issued_app.
    2:{ unfold getChannels. destruct Hopen as [-> | ->];
          rewrite fetch_json_run; reflexivity. }
    destruct (optional_string args (js "cursor")) as [[| u c] |]; reflexivity.
  - unfold get_channel_history_handler, optional_number. rewrite Hlimit, Hsnd.
    erewrite issued_app
      by (unfold getChannelHistory; rewrite fetch_json_run; reflexivity).
    reflexivity.
  - unfold get_users_handler, optional_number. rewrite Hlimit, Hsnd.
    erewrite issued_app
      by (unfold getUsers; rewrite fetch_json_run; reflexivity).
    destruct (optional_string args (js "cursor")) as [[| u c] |]; reflexivity.
Qed.

Lemma omitted_limit_takes_the_method_default_witness :
  map (query_param (js "limit"))
    (issued (tool_handler
               (nth 4 (tools_of (demo_client None))
                  (Build_Tool [] [] (fun _ => resolve JNull)))
               [ (js "channel_id", JStr (js "C1")) ])
       ok_network [])
  = [ Some (js "10") ].
Proof.
  refine (proj2 (proj2 (@omitted_limit_takes_the_method_default
                          (demo_client None)
                          (nth 4 (tools_of (demo_client None))
                             (Build_Tool [] [] (fun _ => resolve JNull)))
                          [ (js "channel_id", JStr (js "C1")) ]
                          ok_network [] _ eq_refl)) eq_refl).
  cbn. tauto.
Defined.

(* ================================================================== *)
(** ** Routing *)
(* ================================================================== *)

Lemma jsstring_eqb_eq (a b : jsstring) : jsstring_eqb a b = true <-> a = b.
Proof.
  revert b. induction a as [| x a IH]; intros [| y b]; cbn [jsstring_eqb];
    try (split; [discriminate | discriminate]); [tauto |].
  unfold unit_eqb. rewrite andb_true_iff, N.eqb_eq, IH.
  split; [intros [-> ->]; reflexivity | intros [= -> ->]; auto].
Qed.

Lemma jsstring_eqb_neq (a b : jsstring) : jsstring_eqb a b = false <-> a <> b.
Proof.
  rewrite <- jsstring_eqb_eq. destruct (jsstring_eqb a b); split;
    intros; try discriminate; try congruence; tauto.
Qed.

(** X18.  The worker serves exactly three paths, compared as whole
    strings: [/sse] and [/sse/message] go to the SSE transport mounted at
    [/sse], [/mcp] to the streamable transport mounted at [/mcp], and every
    other path, any longer path under [/mcp] included, gets the plain
    response [Not found] with status 404. *)
Theorem worker_serves_exactly_three_paths (pathname : jsstring) :
  (worker_fetch pathname = ServeSSE (js "/sse")
   <-> pathname = js "/sse" \/ pathname = js "/sse/message")
  /\ (worker_fetch pathname = Serve (js "/mcp") <-> pathname = js "/mcp")
  /\ (worker_fetch pathname = PlainResponse (js "Not found") 404
      <-> pathname <> js "/sse" /\ pathname <> js "/sse/message"
          /\ pathname <> js "/mcp")
  /\ (forall c more,
        worker_fetch (js "/mcp" ++ c :: more) = PlainResponse (js "Not found") 404).
Proof.
  unfold worker_fetch.
  destruct (jsstring_eqb pathname (js "/sse")) eqn:H1;
    destruct (jsstring_eqb pathname (js "/sse/message")) eqn:H2;
    destruct (jsstring_eqb pathname (js "/mcp")) eqn:H3;
    cbn [orb];
    repeat match goal with
           | H : jsstring_eqb _ _ = true |- _ => apply jsstring_eqb_eq in H
           | H : jsstring_eqb _ _ = false |- _ => apply jsstring_eqb_neq in H
           end.
  all: split; [| split; [| split]].
  all: first
    [ solve [intros c more; reflexivity]
    | solve [split; intros; try discriminate; try tauto; try congruence]
    | solve [split; [discriminate | intros [Ha | Ha]; contradiction]]
    | solve [subst pathname; split; [discriminate |];
             intros (Ha & Hb & Hc); exfalso; auto]
    | solve [exfalso; subst pathname;
             match goal with
             | H : js _ = js _ |- _ => apply js_inj in H; discriminate H
             end] ].
Qed.
